(** * Relata: the Flask routes of [app.py] over a Neo4j store

    A shallow embedding of the three routes of [src/app.py] -- the article
    index, the article graph and the article content -- together with the
    [handle_neo4j_exceptions] decorator, and the properties of the response
    shaping they perform.

    The Neo4j driver is an external collaborator: it is modelled as an
    oracle ([Driver]) that answers each of the three fixed queries with a
    result stream or an exception.  Everything else (validation, the loops
    that build the node / edge lists, the grouping dictionaries, the error
    wrapping) is translated from the Python text.

    Of the three queries only the graph query is given a meaning, on a
    finite store, to obtain rows the graph route can really receive; what
    the index query and the content query answer is left to the oracle.

    Property values are the Python values [None], [bool], [int], [str] and
    [neo4j.time.Date]; the last is a value that [jsonify] cannot serialise.
    Floats, lists, the other temporal types and spatial values are outside
    the model.  Strings are byte strings, in UTF-8.  [str.lower] is a
    parameter, [lower], of which nothing is assumed; [str.replace] of a
    space by a hyphen is the replacement of the byte, which UTF-8 uses for
    nothing but the space. *)

From Stdlib Require Import ZArith Ascii.
From stdpp Require Import base option list gmap sets strings pretty.

Local Open Scope string_scope.
Local Open Scope list_scope.

(** ** Python values *)

Inductive pyval :=
| PyNone
| PyBool (b : bool)
| PyInt (z : Z)
| PyStr (s : string)
| PyDate (year month day : Z)
    (* a [neo4j.time.Date]: the value of a property of Cypher type DATE *).

#[global] Instance pyval_eq_dec : EqDecision pyval.
Proof. solve_decision. Defined.

(** [bool(v)]: Python's truth test. *)
Definition truthy (v : pyval) : bool :=
  match v with
  | PyNone => false
  | PyBool b => b
  | PyInt z => negb (z =? 0)%Z
  | PyStr s => negb (String.eqb s "")
  | PyDate _ _ _ => true
      (* [Date] defines neither [__bool__] nor [__len__] *)
  end.

(** [isinstance(v, str)] *)
Definition isinstance_str (v : pyval) : bool :=
  match v with PyStr _ => true | _ => false end.

(** ["%0<width>d" % z] for a [z] that is not negative. *)
Fixpoint zeros (n : nat) : string :=
  match n with
  | O => ""
  | S n' => String "0" (zeros n')
  end.

Definition zfill (width : nat) (z : Z) : string :=
  zeros (width - String.length (pretty z)) +:+ pretty z.

(** [str(v)], as used by f-strings; a [Date] prints in ISO 8601 form. *)
Definition py_str (v : pyval) : string :=
  match v with
  | PyNone => "None"
  | PyBool true => "True"
  | PyBool false => "False"
  | PyInt z => pretty z
  | PyStr s => s
  | PyDate y m d => zfill 4 y +:+ "-" +:+ zfill 2 m +:+ "-" +:+ zfill 2 d
  end.

(** [type(v).__name__] *)
Definition type_name (v : pyval) : string :=
  match v with
  | PyNone => "NoneType"
  | PyBool _ => "bool"
  | PyInt _ => "int"
  | PyStr _ => "str"
  | PyDate _ _ _ => "Date"
  end.

(** [a or b] *)
Definition py_or (a b : pyval) : pyval := if truthy a then a else b.

(** ** [str] methods *)

(** The lower-case form of an ASCII character. *)
Definition lower_char (c : ascii) : ascii :=
  let n := nat_of_ascii c in
  if (65 <=? n)%nat && (n <=? 90)%nat then ascii_of_nat (n + 32) else c.

(** [s.lower()].  Python lower-cases a string by the Unicode case mapping
    of the interpreter.  The routes are verified for whatever function that
    is: [lower] is a parameter of the development, and nothing is assumed
    about it. *)
Class StrLower := lower : string → string.

(** [s.lower()] on a string of ASCII characters, where it changes the
    capitals [A]-[Z] and nothing else. *)
Fixpoint ascii_lower (s : string) : string :=
  match s with
  | EmptyString => EmptyString
  | String c s' => String (lower_char c) (ascii_lower s')
  end.

(** [s.replace(old, new)] for one-character [old] and [new], the only form
    the routes use. *)
Fixpoint replace (old new : ascii) (s : string) : string :=
  match s with
  | EmptyString => EmptyString
  | String c s' =>
      String (if Ascii.eqb c old then new else c) (replace old new s')
  end.

(** ** Neo4j graph entities

    [neo4j.graph.Node] and [neo4j.graph.Relationship] are both
    [Entity] objects: a read-only mapping over the entity's properties.
    [labels] is kept as a list in iteration order. *)

Definition properties := list (string * pyval).

Record Node := mkNode {
  element_id : string;
  labels : list string;
  node_items : properties
}.

Record Relationship := mkRel {
  rel_element_id : string;
  rel_type : string;
  rel_items : properties
}.

#[global] Instance Node_eq_dec : EqDecision Node.
Proof. solve_decision. Defined.

#[global] Instance Relationship_eq_dec : EqDecision Relationship.
Proof. solve_decision. Defined.

(** [Entity.get(name, default)] *)
Fixpoint get (items : properties) (name : string) (default : pyval) : pyval :=
  match items with
  | [] => default
  | (k, v) :: rest => if String.eqb k name then v else get rest name default
  end.

Definition has_key (items : properties) (name : string) : bool :=
  existsb (fun kv => String.eqb (fst kv) name) items.

(** The truth value of an [Entity].  [Entity] is a [Mapping] that defines
    [__len__] as the number of properties and defines no [__bool__], so
    [if node:] tests [len(node) != 0]: an entity without any property is
    falsy, exactly like an empty [dict]. *)
Definition bool_items (items : properties) : bool :=
  match items with [] => false | _ :: _ => true end.

Definition bool_Node (n : Node) : bool := bool_items (node_items n).
Definition bool_Relationship (r : Relationship) : bool := bool_items (rel_items r).

(** The truth value of a record field that holds a node or [None]. *)
Definition truthy_node (o : option Node) : bool :=
  match o with Some n => bool_Node n | None => false end.

Definition truthy_rel (o : option Relationship) : bool :=
  match o with Some r => bool_Relationship r | None => false end.

(** [next(iter(node.labels), "Entity")] *)
Definition first_label (n : Node) : string :=
  match labels n with
  | l :: _ => l
  | [] => "Entity"
  end.

(** ** Effects: exceptions and the observable trace *)

Inductive exn :=
| Neo4jError (msg : string)
| AttributeError (msg : string)
| TypeError (msg : string).

(** [str(e)] *)
Definition exn_str (e : exn) : string :=
  match e with
  | Neo4jError m => m
  | AttributeError m => m
  | TypeError m => m
  end.

(** The three fixed Cypher queries of the routes. *)
Inductive query :=
| Index_query
    (* MATCH (a:Article)
       WITH a.bias AS bias, a.source AS source, collect(a) AS articles
       RETURN bias, source, articles ORDER BY bias, source *)
| Graph_query
    (* MATCH (a:Article)-[r]->(connected) WHERE elementId(a) = $article_id
       OPTIONAL MATCH (connected)-[r2]->(other_connected)
       WHERE r2.article = a.title
       RETURN r, connected, r2, other_connected *)
| Content_query
    (* MATCH (a:Article)
       WHERE elementId(a) = $article_id
          OR elementId(a) = toInteger($article_id)
       RETURN a *).

Inductive event :=
| Session_open
| Session_run (q : query) (article_id : option pyval)
| Session_close
| Stdout_print (s : string)
| Logger_error (s : string).

(** A computation yields the events it performed and either an exception
    or a value. *)
Definition M (A : Type) : Type := list event * (exn + A).

Definition ret {A} (a : A) : M A := ([], inr a).
Definition raise {A} (e : exn) : M A := ([], inl e).
Definition emit (ev : event) : M unit := ([ev], inr tt).

Definition bind {A B} (m : M A) (k : A → M B) : M B :=
  match m with
  | (t, inl e) => (t, inl e)
  | (t, inr a) => let '(t', r) := k a in (t ++ t', r)
  end.

#[global] Instance M_ret : MRet M := @ret.
#[global] Instance M_bind : MBind M := fun A B k m => bind m k.

(** [try: m except Exception as e: h(e)] *)
Definition try_except {A} (m : M A) (h : exn → M A) : M A :=
  match m with
  | (t, inl e) => let '(t', r) := h e in (t ++ t', r)
  | (t, inr a) => (t, inr a)
  end.

(** [obj.name] where [obj] may be [None]. *)
Definition attr {A B} (o : option A) (name : string) (f : A → B) : M B :=
  match o with
  | Some a => ret (f a)
  | None =>
      raise (AttributeError
               ("'NoneType' object has no attribute '" +:+ name +:+ "'"))
  end.

(** ** The driver *)

(** A result stream: the records it yields and, possibly, the exception
    raised when the next record is fetched. *)
Definition stream (R : Type) : Type := list R * option exn.

(** A record of the graph query: [RETURN r, connected, r2, other_connected]. *)
Record graph_record := mkGraphRecord {
  rec_r : option Relationship;
  rec_connected : option Node;
  rec_r2 : option Relationship;
  rec_other_connected : option Node
}.

(** A record of the index query: [RETURN bias, source, articles]. *)
Record index_record := mkIndexRecord {
  rec_bias : pyval;
  rec_source : pyval;
  rec_articles : list Node
}.

Record Driver := mkDriver {
  (** [driver.session()] raising *)
  session_fails : option exn;
  (** [session.run(query)] of the index route *)
  run_index : exn + stream index_record;
  (** [session.run(query, article_id=...)] of the graph route *)
  run_graph : pyval → exn + stream graph_record;
  (** [session.run(query, article_id=...)] of the content route *)
  run_content : pyval → exn + stream Node
}.

Definition lift {A} (r : exn + A) : M A := ([], r).

(** [with driver.session() as session: body] *)
Definition with_session {A} (d : Driver) (body : M A) : M A :=
  match session_fails d with
  | Some e => raise e
  | None =>
      let '(t, r) := body in
      (Session_open :: t ++ [Session_close], r)
  end.

(** [for record in result: s = step s record] *)
Fixpoint for_each {S R} (step : S → R → M S) (records : list R) (s : S) : M S :=
  match records with
  | [] => ret s
  | r :: rest => s' ← step s r; for_each step rest s'
  end.

Definition for_in {S R} (result : stream R) (step : S → R → M S) (s : S) : M S :=
  s' ← for_each step result.1 s;
  match result.2 with
  | Some e => raise e
  | None => ret s'
  end.

(** [result.single()] *)
Definition single {R} (result : stream R) : M (option R) :=
  match result with
  | (_, Some e) => raise e
  | ([], None) => ret None
  | (r :: _, None) => ret (Some r)
  end.

(** ** Responses *)

Record ShapedNode := mkShapedNode {
  node_id : string;
  node_label : pyval;
  node_group : string;
  node_properties : properties
}.

Record ShapedEdge := mkShapedEdge {
  edge_from : string;
  edge_to : string;
  edge_label : string;
  edge_properties : properties
}.

#[global] Instance ShapedEdge_eq_dec : EqDecision ShapedEdge.
Proof. solve_decision. Defined.

Record ArticleJson := mkArticleJson {
  aj_id : string;
  aj_title : pyval;
  aj_date : pyval;
  aj_readTime : pyval;
  aj_content : pyval;
  aj_source : pyval;
  aj_bias : pyval;
  aj_url : pyval;
  aj_factCheck : pyval;
  aj_tone : pyval
}.

Record IndexArticle := mkIndexArticle {
  ia_id : string;
  ia_title : pyval;
  ia_source : pyval;
  ia_bias : pyval;
  ia_url : pyval;
  ia_content : pyval;
  ia_date : pyval;
  ia_read_time : pyval
}.

Record SourceGroup := mkSourceGroup {
  sg_id : string;
  sg_name : pyval;
  sg_articles : list IndexArticle
}.

Record BiasGroup := mkBiasGroup {
  bg_id : string;
  bg_name : pyval;
  bg_sources : list SourceGroup
}.

Inductive body :=
| Json_error (error : string)
| Json_graph (nodes : list ShapedNode) (edges : list ShapedEdge)
| Json_article (article : ArticleJson)
| Template_index (groups : list BiasGroup)
| Template_error (message : string).

(** A Flask response: the body and the status code. *)
Definition response : Type := body * Z.

(** ** [jsonify]

    [jsonify] serialises its argument with [json.dumps] and Flask's default
    provider.  [None], booleans, integers and strings have an encoding; a
    [neo4j.time.Date] is no [datetime.date] and has none, so that
    [json.dumps] raises [TypeError] on a payload that holds one. *)
Definition json_serializable (v : pyval) : bool :=
  match v with
  | PyDate _ _ _ => false
  | _ => true
  end.

(** The values of a payload that come from the store. *)
Definition node_values (n : ShapedNode) : list pyval :=
  node_label n :: map snd (node_properties n).

Definition edge_values (e : ShapedEdge) : list pyval :=
  map snd (edge_properties e).

Definition article_values (a : ArticleJson) : list pyval :=
  [aj_title a; aj_date a; aj_readTime a; aj_content a; aj_source a;
   aj_bias a; aj_url a; aj_factCheck a; aj_tone a].

Definition body_values (payload : body) : list pyval :=
  match payload with
  | Json_graph nodes edges =>
      flat_map node_values nodes ++ flat_map edge_values edges
  | Json_article article => article_values article
  | Json_error _ | Template_index _ | Template_error _ => []
  end.

Definition serializable (payload : body) : bool :=
  forallb json_serializable (body_values payload).

Definition not_serializable : exn :=
  TypeError "Object of type Date is not JSON serializable".

Definition jsonify (payload : body) : M body :=
  if serializable payload then mret payload else raise not_serializable.

(** ** [handle_neo4j_exceptions] *)

Definition handle_neo4j_exceptions {A} (f : A → M response) (args : A) : M response :=
  try_except (f args) (fun e =>
    _ ← emit (Logger_error ("Neo4j error: " +:+ exn_str e));
    payload ← jsonify (Json_error "Database error occurred");
    mret (payload, 500%Z)).

(** ** [/api/graph/<article_id>] *)

Record graph_state := mkGraphState {
  nodes : list ShapedNode;
  edges : list ShapedEdge;
  node_ids : gset string
}.

Definition graph_init : graph_state :=
  {| nodes := []; edges := []; node_ids := ∅ |}.

(** The dictionary appended for [connected] (lines 156-162). *)
Definition shape_connected {L : StrLower} (connected : Node) : ShapedNode :=
  let node_type := lower (first_label connected) in
  {| node_id := element_id connected;
     node_label :=
       get (node_items connected) "name"
         (get (node_items connected) "title"
            (PyStr (node_type +:+ " " +:+ element_id connected)));
     node_group := node_type;
     node_properties := node_items connected |}.

(** The dictionary appended for [other_connected] (lines 178-183). *)
Definition shape_connected2 {L : StrLower} (connected2 : Node) : ShapedNode :=
  {| node_id := element_id connected2;
     node_label :=
       get (node_items connected2) "name"
         (get (node_items connected2) "title"
            (PyStr (element_id connected2)));
     node_group := lower (first_label connected2);
     node_properties := node_items connected2 |}.

Definition add_node (sn : ShapedNode) (st : graph_state) : graph_state :=
  {| nodes := nodes st ++ [sn];
     edges := edges st;
     node_ids := {[node_id sn]} ∪ node_ids st |}.

Definition add_edge (se : ShapedEdge) (st : graph_state) : graph_state :=
  {| nodes := nodes st;
     edges := edges st ++ [se];
     node_ids := node_ids st |}.

(** One iteration of the loop of lines 152-192.  The attribute reads that
    raise on [None] are kept: [rel.type], [connected.element_id] and
    [connected2.element_id]; [dict(rel)] and the reads on [record["r2"]]
    come after a test that the object passed. *)
Definition graph_step {L : StrLower} (st : graph_state) (record : graph_record) : M graph_state :=
  (* lines 154-163: [if connected and connected.element_id not in node_ids] *)
  let connected := rec_connected record in
  let st :=
    match connected with
    | Some c =>
        if bool_Node c && negb (bool_decide (element_id c ∈ node_ids st))
        then add_node (shape_connected c) st
        else st
    | None => st
    end in
  (* lines 166-173: [if rel.type and connected] *)
  let rel := rec_r record in
  type ← attr rel "type" rel_type;
  st ←
    (if negb (String.eqb type "") && truthy_node connected then
       from ← attr connected "element_id" element_id;
       to ← attr (rec_connected record) "element_id" element_id;
       items ← attr rel "items" rel_items;
       mret (add_edge {| edge_from := from; edge_to := to;
                         edge_label := type; edge_properties := items |} st)
     else mret st);
  (* lines 176-184: [if connected2 and connected2.element_id not in node_ids] *)
  let connected2 := rec_other_connected record in
  let st :=
    match connected2 with
    | Some c2 =>
        if bool_Node c2 && negb (bool_decide (element_id c2 ∈ node_ids st))
        then add_node (shape_connected2 c2) st
        else st
    | None => st
    end in
  (* lines 186-192: [if record["r2"]] *)
  if truthy_rel (rec_r2 record) then
    from ← attr connected "element_id" element_id;
    to ← attr connected2 "element_id" element_id;
    type2 ← attr (rec_r2 record) "type" rel_type;
    items2 ← attr (rec_r2 record) "items" rel_items;
    mret (add_edge {| edge_from := from; edge_to := to;
                      edge_label := type2; edge_properties := items2 |} st)
  else mret st.

(** [not article_id or not isinstance(article_id, str)] *)
Definition invalid_article_id (article_id : pyval) : bool :=
  negb (truthy article_id) || negb (isinstance_str article_id).

Definition get_article_graph {L : StrLower} (d : Driver) (article_id : pyval) : M response :=
  if invalid_article_id article_id then
    payload ← jsonify (Json_error "Invalid article ID");
    mret (payload, 400%Z)
  else
    with_session d (
      _ ← emit (Session_run Graph_query (Some article_id));
      result ← lift (run_graph d article_id);
      _ ← emit (Stdout_print
                  ("Query executed for article_id: " +:+ py_str article_id));
      st ← for_in result graph_step graph_init;
      (* line 196, inside the [with] block and inside the decorated view *)
      payload ← jsonify (Json_graph (nodes st) (edges st));
      mret (payload, 200%Z)).

(** The route as registered: the decorated function. *)
Definition api_graph {L : StrLower} (d : Driver) : pyval → M response :=
  handle_neo4j_exceptions (get_article_graph d).

(** ** [/api/article/<article_id>] *)

Definition article_json (article : Node) : ArticleJson :=
  let items := node_items article in
  {| aj_id := element_id article;
     aj_title := get items "title" (PyStr ("Article " +:+ element_id article));
     aj_date := get items "date" (PyStr "");
     aj_readTime := get items "read_time" (PyStr "");
     aj_content := get items "text" (PyStr "Sadržaj članka nije dostupan.");
     aj_source := get items "source" (PyStr "");
     aj_bias := get items "bias" (PyStr "#");
     aj_url := get items "url" (PyStr "#");
     aj_factCheck :=
       get items "fact_check"
         (PyStr "Nema dostupne informacije o proveri činjenica.");
     aj_tone := get items "tone" (PyStr "Nema dostupne analize tona.") |}.

Definition get_article_content (d : Driver) (article_id : pyval) : M response :=
  if invalid_article_id article_id then
    payload ← jsonify (Json_error "Invalid article ID");
    mret (payload, 400%Z)
  else
    with_session d (
      _ ← emit (Session_run Content_query (Some article_id));
      result ← lift (run_content d article_id);
      result ← single result;
      match result with
      | None =>
          payload ← jsonify (Json_error "Article not found");
          mret (payload, 404%Z)
      | Some article =>
          (* lines 216-228 *)
          payload ← jsonify (Json_article (article_json article));
          mret (payload, 200%Z)
      end).

Definition api_article (d : Driver) : pyval → M response :=
  handle_neo4j_exceptions (get_article_content d).

(** ** [/] : the article index *)

(** Python dictionaries keyed by scalar values, in insertion order.  Keys
    compare with [==]: [True == 1] and [False == 0]; two dates are equal
    when they are the same day, and a date equals nothing else. *)
Definition key_eqb (a b : pyval) : bool :=
  match a, b with
  | PyNone, PyNone => true
  | PyStr s, PyStr t => String.eqb s t
  | PyBool x, PyBool y => Bool.eqb x y
  | PyBool x, PyInt z | PyInt z, PyBool x => (Z.b2z x =? z)%Z
  | PyInt x, PyInt y => (x =? y)%Z
  | PyDate y m d, PyDate y' m' d' => (y =? y')%Z && (m =? m')%Z && (d =? d')%Z
  | _, _ => false
  end.

Abbreviation pydict V := (list (pyval * V)).

(** [k in d] *)
Definition dict_contains {V} (k : pyval) (d : pydict V) : bool :=
  existsb (fun kv => key_eqb (fst kv) k) d.

(** [d[k] = f(d[k])] for a key that is present; no change otherwise. *)
Fixpoint dict_alter {V} (f : V → V) (k : pyval) (d : pydict V) : pydict V :=
  match d with
  | [] => []
  | (k', v) :: rest =>
      if key_eqb k' k then (k', f v) :: rest
      else (k', v) :: dict_alter f k rest
  end.

(** [d[k] = v]: an existing key keeps its position (and its key object), a
    new key goes to the end. *)
Definition dict_set {V} (k : pyval) (v : V) (d : pydict V) : pydict V :=
  if dict_contains k d then dict_alter (fun _ => v) k d else d ++ [(k, v)].

(** The dictionary appended to [articles] (lines 90-99). *)
Definition index_article (source bias : pyval) (article : Node) : IndexArticle :=
  let items := node_items article in
  {| ia_id := element_id article;
     ia_title := get items "title" (PyStr ("Article " +:+ element_id article));
     ia_source := source;
     ia_bias := bias;
     ia_url := get items "url" (PyStr "#");
     ia_content :=
       get items "content" (PyStr "<p>Sadržaj članka nije dostupan.</p>");
     ia_date := get items "date" (PyStr "");
     ia_read_time := get items "read_time" (PyStr "") |}.

Definition display_bias (record : index_record) : pyval :=
  py_or (rec_bias record) (PyStr "Nepoznat bias").

Definition display_source (record : index_record) : pyval :=
  py_or (rec_source record) (PyStr "Nepoznat izvor").

Abbreviation bias_dict := (pydict (pydict (list IndexArticle))).

(** One iteration of the first loop (lines 84-104). *)
Definition index_step (bias_groups : bias_dict) (record : index_record) : bias_dict :=
  let bias := display_bias record in
  let source := display_source record in
  let articles := map (index_article source bias) (rec_articles record) in
  let bias_groups :=
    if negb (dict_contains bias bias_groups)
    then dict_set bias [] bias_groups
    else bias_groups in
  dict_alter (dict_set source articles) bias bias_groups.

(** [v.lower()] on a value of any type. *)
Definition py_lower {L : StrLower} (v : pyval) : M string :=
  match v with
  | PyStr s => mret (lower s)
  | _ =>
      raise (AttributeError
               ("'" +:+ type_name v +:+ "' object has no attribute 'lower'"))
  end.

(** [[f(x) for x in l]] for an [f] that may raise. *)
Fixpoint map_M {A B} (f : A → M B) (l : list A) : M (list B) :=
  match l with
  | [] => mret []
  | x :: rest => y ← f x; ys ← map_M f rest; mret (y :: ys)
  end.

(** The body of the inner loop of the second phase (lines 110-115). *)
Definition source_group {L : StrLower} (entry : pyval * list IndexArticle) : M SourceGroup :=
  let '(source_name, articles) := entry in
  l ← py_lower source_name;
  mret {| sg_id := replace " " "-" l;
          sg_name := source_name;
          sg_articles := articles |}.

(** The body of the outer loop of the second phase (lines 108-121). *)
Definition bias_group {L : StrLower} (entry : pyval * pydict (list IndexArticle)) : M BiasGroup :=
  let '(bias, sources) := entry in
  source_list ← map_M source_group sources;
  l ← py_lower bias;
  mret {| bg_id := replace " " "-" l;
          bg_name := bias;
          bg_sources := source_list |}.

Definition index {L : StrLower} (d : Driver) : M response :=
  try_except
    (with_session d (
       _ ← emit (Session_run Index_query None);
       result ← lift (run_index d);
       bias_groups ← for_in result (fun g r => mret (index_step g r)) [];
       groups ← map_M bias_group bias_groups;
       mret (Template_index groups, 200%Z)))
    (fun e =>
       _ ← emit (Logger_error ("Error in index route: " +:+ exn_str e));
       mret (Template_error "Error loading articles", 500%Z)).

(** ** A finite property graph and the meaning of the graph query on it

    Used to obtain result streams the graph route can really receive: the
    rows of the graph query over an explicit store. *)

Record Edge := mkEdge {
  edge_rel : Relationship;
  start_id : string;
  end_id : string
}.

Record Store := mkStore {
  store_nodes : list Node;
  store_rels : list Edge
}.

Definition node_by_id (st : Store) (id : string) : option Node :=
  List.find (fun n => String.eqb (element_id n) id) (store_nodes st).

(** [e.name] in Cypher: [null] when the property is absent. *)
Fixpoint prop (items : properties) (name : string) : option pyval :=
  match items with
  | [] => None
  | (k, v) :: rest => if String.eqb k name then Some v else prop rest name
  end.

(** Cypher's [x = y] in a [WHERE]: it holds only for two non-null, equal
    values. *)
Definition cypher_eq (x y : option pyval) : bool :=
  match x, y with
  | Some a, Some b => bool_decide (a = b) && negb (bool_decide (a = PyNone))
  | _, _ => false
  end.

(** [(a:Article)] *)
Definition is_article (n : Node) : bool := bool_decide ("Article" ∈ labels n).

(** [elementId(a) = $article_id] *)
Definition elementId_eq (a : Node) (article_id : pyval) : bool :=
  bool_decide (article_id = PyStr (element_id a)).

(** [OPTIONAL MATCH (connected)-[r2]->(other_connected)
     WHERE r2.article = a.title] *)
Definition second_hops (st : Store) (a connected : Node) : list (Relationship * Node) :=
  flat_map (fun e =>
    if String.eqb (start_id e) (element_id connected)
       && cypher_eq (prop (rel_items (edge_rel e)) "article")
                    (prop (node_items a) "title")
    then match node_by_id st (end_id e) with
         | Some other => [(edge_rel e, other)]
         | None => []
         end
    else []) (store_rels st).

(** The rows of [Graph_query]. *)
Definition graph_rows (st : Store) (article_id : pyval) : list graph_record :=
  flat_map (fun a =>
    if is_article a && elementId_eq a article_id then
      flat_map (fun e =>
        if String.eqb (start_id e) (element_id a) then
          match node_by_id st (end_id e) with
          | Some connected =>
              match second_hops st a connected with
              | [] => [mkGraphRecord (Some (edge_rel e)) (Some connected) None None]
              | hops =>
                  map (fun h => mkGraphRecord (Some (edge_rel e)) (Some connected)
                                              (Some h.1) (Some h.2)) hops
              end
          | None => []
          end
        else []) (store_rels st)
    else []) (store_nodes st).

(** A healthy driver over a store.  The graph query is answered from the
    store.  The rows of the index query, whose aggregation and ordering are
    the store's business, are given; so is the answer to the content query,
    whose [toInteger] coercion of the identifier is the store's business
    as well. *)
Definition store_driver (st : Store) (index_rows : list index_record)
    (content : pyval → exn + stream Node) : Driver :=
  {| session_fails := None;
     run_index := inr (index_rows, None);
     run_graph := fun article_id => inr (graph_rows st article_id, None);
     run_content := content |}.

(** ** What one row contributes, in the words of the specification *)

(** The first-hop edge of a row: a loop on [connected]. *)
Definition first_hop_edge (record : graph_record) : list ShapedEdge :=
  match rec_r record, rec_connected record with
  | Some rel, Some c =>
      if negb (String.eqb (rel_type rel) "") && bool_Node c
      then [ {| edge_from := element_id c; edge_to := element_id c;
                edge_label := rel_type rel; edge_properties := rel_items rel |} ]
      else []
  | _, _ => []
  end.

(** The second-hop edge of a row: from [connected] to [other_connected]. *)
Definition second_hop_edge (record : graph_record) : list ShapedEdge :=
  match rec_r2 record, rec_connected record, rec_other_connected record with
  | Some r2, Some c, Some c2 =>
      if bool_Relationship r2
      then [ {| edge_from := element_id c; edge_to := element_id c2;
                edge_label := rel_type r2; edge_properties := rel_items r2 |} ]
      else []
  | _, _, _ => []
  end.

Definition row_edges (record : graph_record) : list ShapedEdge :=
  first_hop_edge record ++ second_hop_edge record.

(** The identifiers of the nodes a result carries. *)
Definition row_node_ids (record : graph_record) : list string :=
  match rec_connected record with Some c => [element_id c] | None => [] end
  ++ match rec_other_connected record with Some c => [element_id c] | None => [] end.

(** A row as the graph query produces it: [r] and [connected] are bound by
    the mandatory [MATCH], and [r2] comes with [other_connected]. *)
Definition row_wf (record : graph_record) : Prop :=
  is_Some (rec_r record) ∧ is_Some (rec_connected record) ∧
  (is_Some (rec_r2 record) → is_Some (rec_other_connected record)).

(** Every node of the row carries at least one property. *)
Definition row_nodes_truthy (record : graph_record) : Prop :=
  (∀ c, rec_connected record = Some c → bool_Node c = true) ∧
  (∀ c, rec_other_connected record = Some c → bool_Node c = true).

Definition node_ids_of (ns : list ShapedNode) : list string := map node_id ns.

(** The loop invariant of the node list: [node_ids] is the set of emitted
    identifiers and none is emitted twice. *)
Definition nodes_inv (st : graph_state) : Prop :=
  NoDup (node_ids_of (nodes st)) ∧
  ∀ x, x ∈ node_ids st ↔ x ∈ node_ids_of (nodes st).

(** ** Auxiliary definitions for the proofs *)

(** Lines 155-163 and 177-184 as one function of the shaping used. *)
Definition visit (shape : Node → ShapedNode) (o : option Node) (st : graph_state) : graph_state :=
  match o with
  | Some c =>
      if bool_Node c && negb (bool_decide (element_id c ∈ node_ids st))
      then add_node (shape c) st
      else st
  | None => st
  end.

(** What one row does to the node list and to [node_ids]. *)
Definition visit_row {L : StrLower} (record : graph_record) (st : graph_state) : graph_state :=
  visit shape_connected2 (rec_other_connected record)
    (visit shape_connected (rec_connected record) st).

Definition visit_rows {L : StrLower} (records : list graph_record) (st : graph_state) : graph_state :=
  foldl (fun s r => visit_row r s) st records.

(** [c] is a node of the row that passes Python's truth test. *)
Definition truthy_row_node (record : graph_record) (c : Node) : Prop :=
  (rec_connected record = Some c ∨ rec_other_connected record = Some c) ∧
  bool_Node c = true.

Definition loop_edge (rel : Relationship) (c : Node) : ShapedEdge :=
  {| edge_from := element_id c; edge_to := element_id c;
     edge_label := rel_type rel; edge_properties := rel_items rel |}.

Definition hop_edge (r2 : Relationship) (c c2 : Node) : ShapedEdge :=
  {| edge_from := element_id c; edge_to := element_id c2;
     edge_label := rel_type r2; edge_properties := rel_items r2 |}.

(** The response of the decorator's [except] branch. *)
Definition json_500 : response := (Json_error "Database error occurred", 500%Z).

(** The store fails with [e] while a route is served: when the session is
    opened, when the query is run, or while its records are fetched. *)
Definition store_error {R} (d : Driver) (run : exn + stream R) (e : exn) : Prop :=
  session_fails d = Some e ∨ run = inl e ∨ ∃ rows, run = inr (rows, Some e).

(** [bias_groups] holds a group for the display names [b] and [s]. *)
Definition has_group (b s : pyval) (bias_groups : bias_dict) : Prop :=
  ∃ k sources k2 articles,
    (k, sources) ∈ bias_groups ∧ key_eqb k b = true ∧
    (k2, articles) ∈ sources ∧ key_eqb k2 s = true.

(** Every key of the grouping dictionaries is a string. *)
Definition str_keys (bias_groups : bias_dict) : Prop :=
  ∀ k sources, (k, sources) ∈ bias_groups →
    isinstance_str k = true ∧
    ∀ k2 articles, (k2, articles) ∈ sources → isinstance_str k2 = true.

(** The slug of a display name: lower-cased, spaces replaced by hyphens. *)
Definition slug {L : StrLower} (s : string) : string := replace " " "-" (lower s).

(** ** Evaluating the routes

    The labels, names and display names of the example data below are
    strings of ASCII characters, on which [str.lower] is [ascii_lower]:
    this is the [lower] the routes are run with on them. *)
#[global] Instance ascii_StrLower : StrLower := ascii_lower.

(** ** Example stores *)

Definition vest : Node :=
  mkNode "4:db:0" ["Article"]
    [("title", PyStr "Vest"); ("source", PyStr "Danas"); ("bias", PyStr "Levo")].
(** An answer to the content query over the example stores, each of which
    holds the one article [vest]: the article for its identifier, no
    record for the identifiers of the other nodes.  None of the identifiers
    used below is a numeral, so that [toInteger] gives [null] on them. *)
Definition vest_content (article_id : pyval) : exn + stream Node :=
  if bool_decide (article_id = PyStr "4:db:0") then inr ([vest], None)
  else inr ([], None).

Definition ana : Node := mkNode "4:db:1" ["Osoba"] [("name", PyStr "Ana")].
Definition mesto : Node := mkNode "4:db:2" ["Lokacija"] [].
Definition firma : Node := mkNode "4:db:3" ["Organizacija"] [("osnovana", PyInt 1999)].

Definition pominje : Relationship := mkRel "5:db:0" "POMINJE" [].
Definition autor : Relationship := mkRel "5:db:1" "AUTOR" [("article", PyStr "Vest")].
Definition radi_u : Relationship := mkRel "5:db:2" "RADI_U" [("article", PyStr "Vest")].
Definition nalazi_se : Relationship := mkRel "5:db:3" "NALAZI_SE" [("article", PyStr "Vest")].
Definition pominje_mesto : Relationship := mkRel "5:db:4" "POMINJE" [].

(** The article mentions Ana, who works in a company that has no name. *)
Definition unnamed_store : Store :=
  {| store_nodes := [vest; ana; firma];
     store_rels := [mkEdge pominje "4:db:0" "4:db:1";
                    mkEdge radi_u "4:db:1" "4:db:3"] |}.

Definition unnamed_nodes : list ShapedNode :=
  [ {| node_id := "4:db:1"; node_label := PyStr "Ana"; node_group := "osoba";
       node_properties := [("name", PyStr "Ana")] |};
    {| node_id := "4:db:3"; node_label := PyStr "4:db:3";
       node_group := "organizacija";
       node_properties := [("osnovana", PyInt 1999)] |} ].

Definition unnamed_edges : list ShapedEdge :=
  [ {| edge_from := "4:db:1"; edge_to := "4:db:1"; edge_label := "POMINJE";
       edge_properties := [] |};
    {| edge_from := "4:db:1"; edge_to := "4:db:3"; edge_label := "RADI_U";
       edge_properties := [("article", PyStr "Vest")] |} ].

(** The article mentions Ana, and Ana points back to the article. *)
Definition back_edge_store : Store :=
  {| store_nodes := [vest; ana];
     store_rels := [mkEdge pominje "4:db:0" "4:db:1";
                    mkEdge autor "4:db:1" "4:db:0"] |}.

(** The article mentions a place that carries no property; the place
    points to Ana. *)
Definition bare_node_store : Store :=
  {| store_nodes := [vest; ana; mesto];
     store_rels := [mkEdge pominje_mesto "4:db:0" "4:db:2";
                    mkEdge nalazi_se "4:db:2" "4:db:1"] |}.

(** Both of the above at once. *)
Definition mixed_store : Store :=
  {| store_nodes := [vest; ana; mesto];
     store_rels := [mkEdge pominje "4:db:0" "4:db:1";
                    mkEdge autor "4:db:1" "4:db:0";
                    mkEdge pominje_mesto "4:db:0" "4:db:2"] |}.

(** A fuller store: the article mentions Ana and the company; Ana works in
    the company and lives in a city. *)
Definition grad : Node := mkNode "4:db:4" ["Lokacija"] [("name", PyStr "Beograd")].
Definition zivi_u : Relationship := mkRel "5:db:5" "ZIVI_U" [("article", PyStr "Vest")].
Definition pominje_firmu : Relationship := mkRel "5:db:6" "POMINJE" [].

Definition newsroom_store : Store :=
  {| store_nodes := [vest; ana; firma; grad];
     store_rels := [mkEdge pominje "4:db:0" "4:db:1";
                    mkEdge radi_u "4:db:1" "4:db:3";
                    mkEdge zivi_u "4:db:1" "4:db:4";
                    mkEdge pominje_firmu "4:db:0" "4:db:3"] |}.

Definition newsroom_nodes : list ShapedNode :=
  [ {| node_id := "4:db:1"; node_label := PyStr "Ana"; node_group := "osoba";
       node_properties := [("name", PyStr "Ana")] |};
    {| node_id := "4:db:3"; node_label := PyStr "4:db:3";
       node_group := "organizacija";
       node_properties := [("osnovana", PyInt 1999)] |};
    {| node_id := "4:db:4"; node_label := PyStr "Beograd";
       node_group := "lokacija";
       node_properties := [("name", PyStr "Beograd")] |} ].

Definition newsroom_edges : list ShapedEdge :=
  [ {| edge_from := "4:db:1"; edge_to := "4:db:1"; edge_label := "POMINJE";
       edge_properties := [] |};
    {| edge_from := "4:db:1"; edge_to := "4:db:3"; edge_label := "RADI_U";
       edge_properties := [("article", PyStr "Vest")] |};
    {| edge_from := "4:db:1"; edge_to := "4:db:1"; edge_label := "POMINJE";
       edge_properties := [] |};
    {| edge_from := "4:db:1"; edge_to := "4:db:4"; edge_label := "ZIVI_U";
       edge_properties := [("article", PyStr "Vest")] |};
    {| edge_from := "4:db:3"; edge_to := "4:db:3"; edge_label := "POMINJE";
       edge_properties := [] |} ].

(** The article mentions a place that carries no property; the place
    points to Ana and to the city. *)
Definition vodi_u : Relationship := mkRel "5:db:8" "VODI_U" [("article", PyStr "Vest")].

Definition crossroads_store : Store :=
  {| store_nodes := [vest; ana; mesto; grad];
     store_rels := [mkEdge pominje_mesto "4:db:0" "4:db:2";
                    mkEdge nalazi_se "4:db:2" "4:db:1";
                    mkEdge vodi_u "4:db:2" "4:db:4"] |}.

(** A driver whose every session fails. *)
Definition down_driver : Driver :=
  {| session_fails := Some (Neo4jError "Couldn't connect to localhost:7687");
     run_index := inr ([], None);
     run_graph := fun _ => inr ([], None);
     run_content := fun _ => inr ([], None) |}.

(** Two index rows: one with both attributes, one with neither. *)
Definition index_rows_example : list index_record :=
  [ mkIndexRecord (PyStr "Levo") (PyStr "Danas") [vest];
    mkIndexRecord PyNone PyNone [mkNode "4:db:7" ["Article"] [("title", PyStr "Bez izvora")]] ].

Definition index_groups_example : list BiasGroup :=
  [ {| bg_id := "levo"; bg_name := PyStr "Levo";
       bg_sources :=
         [ {| sg_id := "danas"; sg_name := PyStr "Danas";
              sg_articles :=
                [ {| ia_id := "4:db:0"; ia_title := PyStr "Vest";
                     ia_source := PyStr "Danas"; ia_bias := PyStr "Levo";
                     ia_url := PyStr "#";
                     ia_content := PyStr "<p>Sadržaj članka nije dostupan.</p>";
                     ia_date := PyStr ""; ia_read_time := PyStr "" |} ] |} ] |};
    {| bg_id := "nepoznat-bias"; bg_name := PyStr "Nepoznat bias";
       bg_sources :=
         [ {| sg_id := "nepoznat-izvor"; sg_name := PyStr "Nepoznat izvor";
              sg_articles :=
                [ {| ia_id := "4:db:7"; ia_title := PyStr "Bez izvora";
                     ia_source := PyStr "Nepoznat izvor";
                     ia_bias := PyStr "Nepoznat bias";
                     ia_url := PyStr "#";
                     ia_content := PyStr "<p>Sadržaj članka nije dostupan.</p>";
                     ia_date := PyStr ""; ia_read_time := PyStr "" |} ] |} ] |} ].

(** ** Definitions for the further properties *)

(** The shape of the trace of a request: nothing at all; or only the log
    line of a session that could not be opened; or one session holding
    one query, closed before anything is logged. *)
Definition one_session (q : query) (param : option pyval) (t : list event) : Prop :=
  t = [] ∨
  (∃ msg, t = [Logger_error msg]) ∨
  ∃ mid tail,
    t = Session_open :: Session_run q param :: mid ++ Session_close :: tail ∧
    (mid = [] ∨ ∃ s, mid = [Stdout_print s]) ∧
    (tail = [] ∨ ∃ msg, tail = [Logger_error msg]).

(** [o is None] *)
Definition is_none {A} (o : option A) : bool :=
  match o with None => true | Some _ => false end.

(** The rows on which an iteration of the graph loop raises: [r] is
    [None], or [r2] passes the truth test while [connected] or
    [other_connected] is [None]. *)
Definition row_raises (record : graph_record) : bool :=
  match rec_r record with
  | None => true
  | Some _ =>
      truthy_rel (rec_r2 record) &&
      (is_none (rec_connected record) || is_none (rec_other_connected record))
  end.

Definition valid_id (article_id : pyval) : Prop :=
  ∃ s, article_id = PyStr s ∧ s ≠ "".

(** No two keys of [ks] are equal as dictionary keys. *)
Fixpoint keys_distinct (ks : list pyval) : Prop :=
  match ks with
  | [] => True
  | k :: rest => (∀ k', k' ∈ rest → key_eqb k k' = false) ∧ keys_distinct rest
  end.

(** The dictionaries of the index hold each key once, at both levels. *)
Definition dict_distinct (bias_groups : bias_dict) : Prop :=
  keys_distinct (map fst bias_groups) ∧
  ∀ k sources, (k, sources) ∈ bias_groups → keys_distinct (map fst sources).

(** Every article filed in the dictionaries carries the keys it is filed
    under. *)
Definition dict_labelled (bias_groups : bias_dict) : Prop :=
  ∀ k sources k2 articles a,
    (k, sources) ∈ bias_groups → (k2, articles) ∈ sources → a ∈ articles →
    key_eqb k (ia_bias a) = true ∧ key_eqb k2 (ia_source a) = true.

(** The group of [b] and [s] lists [articles]. *)
Definition group_lists (b s : pyval) (articles : list IndexArticle)
    (bias_groups : bias_dict) : Prop :=
  ∃ k sources k2,
    (k, sources) ∈ bias_groups ∧ key_eqb k b = true ∧
    (k2, articles) ∈ sources ∧ key_eqb k2 s = true.

Definition same_group (r1 r2 : index_record) : Prop :=
  display_bias r1 = display_bias r2 ∧ display_source r1 = display_source r2.

Definition record_articles (record : index_record) : list IndexArticle :=
  map (index_article (display_source record) (display_bias record))
      (rec_articles record).

(** [c in s] *)
Fixpoint occurs (c : ascii) (s : string) : bool :=
  match s with
  | EmptyString => false
  | String c' s' => Ascii.eqb c' c || occurs c s'
  end.

(** ** Further example data *)

(** Three index rows, two of which fall under the same display names: an
    empty bias and a missing bias are both shown as ["Nepoznat bias"]. *)
Definition index_rows_merging : list index_record :=
  [ mkIndexRecord (PyStr "") (PyStr "Danas")
      [mkNode "4:db:8" ["Article"] [("title", PyStr "Prva")]];
    mkIndexRecord (PyStr "Levo") (PyStr "Danas") [vest];
    mkIndexRecord PyNone (PyStr "Danas")
      [mkNode "4:db:7" ["Article"] [("title", PyStr "Druga")]] ].

Definition index_groups_merging : list BiasGroup :=
  [ {| bg_id := "nepoznat-bias"; bg_name := PyStr "Nepoznat bias";
       bg_sources :=
         [ {| sg_id := "danas"; sg_name := PyStr "Danas";
              sg_articles :=
                [ {| ia_id := "4:db:7"; ia_title := PyStr "Druga";
                     ia_source := PyStr "Danas"; ia_bias := PyStr "Nepoznat bias";
                     ia_url := PyStr "#";
                     ia_content := PyStr "<p>Sadržaj članka nije dostupan.</p>";
                     ia_date := PyStr ""; ia_read_time := PyStr "" |} ] |} ] |};
    {| bg_id := "levo"; bg_name := PyStr "Levo";
       bg_sources :=
         [ {| sg_id := "danas"; sg_name := PyStr "Danas";
              sg_articles :=
                [ {| ia_id := "4:db:0"; ia_title := PyStr "Vest";
                     ia_source := PyStr "Danas"; ia_bias := PyStr "Levo";
                     ia_url := PyStr "#";
                     ia_content := PyStr "<p>Sadržaj članka nije dostupan.</p>";
                     ia_date := PyStr ""; ia_read_time := PyStr "" |} ] |} ] |} ].

(** An index row whose bias is a number. *)
Definition index_rows_numeric : list index_record :=
  [ mkIndexRecord (PyInt 3) (PyStr "Danas") [vest] ].

(** A driver whose graph query yields a row with a second-hop relationship
    and no second-hop node. *)
Definition half_row_driver : Driver :=
  {| session_fails := None;
     run_index := inr ([], None);
     run_graph := fun _ =>
       inr ([mkGraphRecord (Some pominje) (Some ana) (Some radi_u) None], None);
     run_content := fun _ => inr ([], None) |}.

(** A day the article mentions: a node whose [datum] property is a date. *)
Definition dan : Node :=
  mkNode "4:db:5" ["Vreme"]
    [("name", PyStr "17. maj"); ("datum", PyDate 2024 5 17)].
Definition pominje_dan : Relationship := mkRel "5:db:7" "POMINJE" [].

Definition dated_store : Store :=
  {| store_nodes := [vest; dan];
     store_rels := [mkEdge pominje_dan "4:db:0" "4:db:5"] |}.

(** An article whose [date] property is a date, and an answer of the
    content query that yields it. *)
Definition dated_vest : Node :=
  mkNode "4:db:6" ["Article"]
    [("title", PyStr "Vest"); ("date", PyDate 2024 5 17)].

Definition dated_content (article_id : pyval) : exn + stream Node :=
  if bool_decide (article_id = PyStr "4:db:6") then inr ([dated_vest], None)
  else inr ([], None).

(** * Properties *)

(** ** The result of a computation *)

Ltac unfold_M :=
  unfold mbind, M_bind, bind, mret, M_ret, ret, raise, attr, emit, lift in *.

Ltac answer tac := eexists _, _; split; [reflexivity|tac].

(** The lemmas of this part hold for every [lower]. *)
Section routes.
Context {L : StrLower}.

Section results.
Context {A B : Type}.
Implicit Types (m : M A) (k : A → M B).

Lemma bind_result m k :
  (m ≫= k).2 = match m.2 with inl e => inl e | inr a => (k a).2 end.
Proof.
  destruct m as [t [e|a]]; simpl; [done|].
  unfold mbind, M_bind, bind. by destruct (k a).
Qed.

Lemma try_except_result m h :
  (try_except m h).2 = match m.2 with inl e => (h e).2 | inr a => inr a end.
Proof. destruct m as [t [e|a]]; simpl; [|done]. by destruct (h e). Qed.

Lemma with_session_result d m :
  (with_session d m).2 =
  match session_fails d with Some e => inl e | None => m.2 end.
Proof. unfold with_session. destruct (session_fails d); [done|]. by destruct m. Qed.
End results.

Lemma for_each_result_cons {S R} (step : S → R → M S) r rest s :
  (for_each step (r :: rest) s).2 =
  match (step s r).2 with inl e => inl e | inr s' => (for_each step rest s').2 end.
Proof. simpl. apply bind_result. Qed.

Lemma for_each_pure {S R} (f : S → R → S) records : ∀ s,
  (for_each (λ g r, mret (f g r)) records s).2 = inr (foldl f s records).
Proof.
  induction records as [|r rest IH]; intros s; [done|].
  rewrite for_each_result_cons. simpl. apply IH.
Qed.

Lemma for_in_result {S R} (result : stream R) (step : S → R → M S) s :
  (for_in result step s).2 =
  match (for_each step result.1 s).2 with
  | inl e => inl e
  | inr s' => match result.2 with Some e => inl e | None => inr s' end
  end.
Proof.
  unfold for_in. rewrite bind_result.
  destruct (for_each step result.1 s).2; [done|]. by destruct result.2.
Qed.

Lemma map_M_result {A B} (f : A → M B) l : ∀ ys,
  (map_M f l).2 = inr ys → Forall2 (λ x y, (f x).2 = inr y) l ys.
Proof.
  induction l as [|x rest IH]; intros ys; simpl.
  - intros [= <-]. constructor.
  - rewrite bind_result. destruct (f x).2 as [e|y] eqn:Hx; [done|].
    rewrite bind_result. destruct (map_M f rest).2 as [e|ys'] eqn:Hrest; [done|].
    simpl. intros [= <-]. constructor; [done|]. by apply IH.
Qed.

(** The decorator turns every exception into the same response. *)
Lemma handle_result {A} (f : A → M response) args :
  (handle_neo4j_exceptions f args).2 =
  match (f args).2 with inl _ => inr json_500 | inr r => inr r end.
Proof.
  unfold handle_neo4j_exceptions. rewrite try_except_result.
  by destruct (f args).2.
Qed.

(** It logs the raw message and nothing else. *)
Lemma handle_trace {A} (f : A → M response) args t e :
  f args = (t, inl e) →
  handle_neo4j_exceptions f args =
    (t ++ [Logger_error ("Neo4j error: " +:+ exn_str e)], inr json_500).
Proof. intros H. unfold handle_neo4j_exceptions. by rewrite H. Qed.

(** ** The graph loop *)

Section graph_loop.
Implicit Types (st : graph_state) (record : graph_record)
               (records : list graph_record) (shape : Node → ShapedNode).

(** One iteration, when it does not raise: the edges grow by the edges of
    the row, the nodes as [visit_row] says. *)
Lemma graph_step_result st record st' :
  (graph_step st record).2 = inr st' →
  edges st' = edges st ++ row_edges record ∧
  nodes st' = nodes (visit_row record st) ∧
  node_ids st' = node_ids (visit_row record st).
Proof.
  destruct record as [[rel|] [c|] [r2|] [c2|]];
    unfold graph_step, row_edges, first_hop_edge, second_hop_edge, visit_row,
      visit, truthy_node, truthy_rel;
    unfold_M; simpl; intros H;
    repeat (case_match; simpl in *; simplify_eq);
    rewrite ?app_nil_r, <-?app_assoc; try done.
Qed.

(** One iteration does not raise on a row the query can produce. *)
Lemma graph_step_total st record :
  row_wf record → ∃ st', (graph_step st record).2 = inr st'.
Proof.
  intros ([rel Hrel] & [c Hc] & H2).
  destruct record as [r0 c0 [r2|] c2]; simpl in *; subst.
  - destruct H2 as [c2' ->]; [by eexists|].
    unfold graph_step, truthy_node, truthy_rel; unfold_M; simpl.
    repeat (case_match; simpl in *; simplify_eq); eauto.
  - unfold graph_step, truthy_node, truthy_rel; unfold_M; simpl.
    repeat (case_match; simpl in *; simplify_eq); eauto.
Qed.

Lemma visit_nodes_ext shape o st1 st2 :
  nodes st1 = nodes st2 → node_ids st1 = node_ids st2 →
  nodes (visit shape o st1) = nodes (visit shape o st2) ∧
  node_ids (visit shape o st1) = node_ids (visit shape o st2).
Proof.
  intros Hn Hi. destruct o as [c|]; simpl; [|done].
  rewrite Hi. case_match; simpl; [|done]. by rewrite Hn, Hi.
Qed.

Lemma visit_row_ext record st1 st2 :
  nodes st1 = nodes st2 → node_ids st1 = node_ids st2 →
  nodes (visit_row record st1) = nodes (visit_row record st2) ∧
  node_ids (visit_row record st1) = node_ids (visit_row record st2).
Proof.
  intros Hn Hi. unfold visit_row.
  destruct (visit_nodes_ext shape_connected (rec_connected record) st1 st2 Hn Hi).
  by apply visit_nodes_ext.
Qed.

Lemma visit_rows_ext records : ∀ st1 st2,
  nodes st1 = nodes st2 → node_ids st1 = node_ids st2 →
  nodes (visit_rows records st1) = nodes (visit_rows records st2) ∧
  node_ids (visit_rows records st1) = node_ids (visit_rows records st2).
Proof.
  induction records as [|r rest IH]; intros st1 st2 Hn Hi; simpl; [done|].
  destruct (visit_row_ext r st1 st2 Hn Hi). by apply IH.
Qed.

Lemma for_each_graph_result records : ∀ st st',
  (for_each graph_step records st).2 = inr st' →
  edges st' = edges st ++ flat_map row_edges records ∧
  nodes st' = nodes (visit_rows records st) ∧
  node_ids st' = node_ids (visit_rows records st).
Proof.
  induction records as [|r rest IH]; intros st st' H.
  - simpl in H. simplify_eq. by rewrite app_nil_r.
  - rewrite for_each_result_cons in H.
    destruct (graph_step st r).2 as [e|st1] eqn:Hstep; [done|].
    apply graph_step_result in Hstep as (He & Hn & Hi).
    apply IH in H as (He' & Hn' & Hi').
    destruct (visit_rows_ext rest st1 (visit_row r st) Hn Hi) as [Hn2 Hi2].
    simpl. rewrite He', He, Hn', Hi', Hn2, Hi2, <-app_assoc. done.
Qed.

Lemma for_each_graph_total records : ∀ st,
  Forall row_wf records → ∃ st', (for_each graph_step records st).2 = inr st'.
Proof.
  induction records as [|r rest IH]; intros st Hwf.
  - by eexists.
  - inversion Hwf as [|?? Hr Hrest]; subst.
    destruct (graph_step_total st r Hr) as [st1 H1].
    rewrite for_each_result_cons, H1. by apply IH.
Qed.

(** The node invariant. *)
Lemma graph_init_inv : nodes_inv graph_init.
Proof. split; simpl; [constructor|]. intros x. set_solver. Qed.

Lemma visit_inv shape o st :
  (∀ c, node_id (shape c) = element_id c) →
  nodes_inv st → nodes_inv (visit shape o st).
Proof.
  intros Hid [Hnd Hset]. destruct o as [c|]; simpl; [|done].
  destruct (bool_Node c); simpl; [|done].
  case_bool_decide as Hin; simpl; [done|].
  split; simpl.
  - unfold node_ids_of. rewrite map_app. simpl. rewrite Hid.
    apply NoDup_app. split_and!; [done| |apply NoDup_singleton].
    intros x Hx ->%list_elem_of_singleton. apply Hin, Hset, Hx.
  - intros x. unfold node_ids_of. rewrite map_app, elem_of_app. simpl.
    rewrite Hid, list_elem_of_singleton, elem_of_union, elem_of_singleton, Hset.
    unfold node_ids_of. tauto.
Qed.

Lemma visit_row_inv record st : nodes_inv st → nodes_inv (visit_row record st).
Proof. intros H. unfold visit_row. by do 2 (apply visit_inv; [done|]). Qed.

Lemma visit_rows_inv records : ∀ st, nodes_inv st → nodes_inv (visit_rows records st).
Proof.
  induction records as [|r rest IH]; intros st H; simpl; [done|].
  apply IH, visit_row_inv, H.
Qed.

(** Which identifiers are emitted. *)
Lemma visit_ids shape o st :
  (∀ c, node_id (shape c) = element_id c) → nodes_inv st →
  ∀ x, x ∈ node_ids_of (nodes (visit shape o st)) ↔
       x ∈ node_ids_of (nodes st) ∨
       ∃ c, o = Some c ∧ bool_Node c = true ∧ x = element_id c.
Proof.
  intros Hid [_ Hset] x. destruct o as [c|]; simpl.
  2: { split; [auto|]. by intros [?|(? & ? & _)]. }
  destruct (bool_Node c) eqn:Hb; simpl.
  2: { split; [auto|]. intros [?|(? & [= <-] & ? & _)]; congruence. }
  case_bool_decide as Hin; simpl.
  - apply Hset in Hin. split; [auto|].
    intros [?|(? & [= <-] & _ & ->)]; done.
  - unfold node_ids_of. rewrite map_app, elem_of_app. simpl.
    rewrite Hid, list_elem_of_singleton. split.
    + intros [?| ->]; [by left|right]. by exists c.
    + intros [?|(? & [= <-] & _ & ->)]; [by left|by right].
Qed.

Lemma visit_row_ids record st :
  nodes_inv st →
  ∀ x, x ∈ node_ids_of (nodes (visit_row record st)) ↔
       x ∈ node_ids_of (nodes st) ∨
       ∃ c, truthy_row_node record c ∧ x = element_id c.
Proof.
  intros Hinv x. unfold visit_row, truthy_row_node.
  rewrite (visit_ids shape_connected2); [|done|by apply visit_inv].
  rewrite (visit_ids shape_connected); [|done|done].
  split.
  - intros [[?|(c & ? & ? & ?)]|(c & ? & ? & ?)]; [by left|right; exists c..];
      (split; [split|]; [|done..]); [by left|by right].
  - intros [?|(c & [[?|?] ?] & ?)];
      [by left; left|left; right; by exists c|right; by exists c].
Qed.

Lemma visit_rows_ids records : ∀ st,
  nodes_inv st →
  ∀ x, x ∈ node_ids_of (nodes (visit_rows records st)) ↔
       x ∈ node_ids_of (nodes st) ∨
       ∃ record c, record ∈ records ∧ truthy_row_node record c ∧ x = element_id c.
Proof.
  induction records as [|r rest IH]; intros st Hinv x; simpl.
  - split; [auto|]. intros [?|(? & ? & []%elem_of_nil & _)]; done.
  - rewrite IH by (by apply visit_row_inv).
    rewrite visit_row_ids by done. split.
    + intros [[?|(c & ? & ?)]|(rec & c & ? & ? & ?)]; [by left|right..].
      * exists r, c. split_and!; [left|..]; done.
      * exists rec, c. split_and!; [right|..]; done.
    + intros [?|(rec & c & [->|?]%elem_of_cons & ? & ?)];
        [by left; left|left; right; by exists c|right; by exists rec, c].
Qed.
End graph_loop.

(** ** The edges of a row *)

Lemma first_hop_edge_inv record e :
  e ∈ first_hop_edge record →
  ∃ rel c, rec_r record = Some rel ∧ rec_connected record = Some c ∧
           rel_type rel ≠ "" ∧ bool_Node c = true ∧ e = loop_edge rel c.
Proof.
  unfold first_hop_edge.
  destruct (rec_r record) as [rel|]; [|by intros ?%elem_of_nil].
  destruct (rec_connected record) as [c|]; [|by intros ?%elem_of_nil].
  destruct (negb _ && _) eqn:Hb; [|by intros ?%elem_of_nil].
  intros ->%list_elem_of_singleton.
  apply andb_true_iff in Hb as [Ht Hc].
  exists rel, c. split_and!; try done.
  intros Heq. by rewrite Heq in Ht.
Qed.

Lemma first_hop_edge_intro record rel c :
  rec_r record = Some rel → rec_connected record = Some c →
  rel_type rel ≠ "" → bool_Node c = true →
  first_hop_edge record = [loop_edge rel c].
Proof.
  intros Hr Hc Ht Hb. unfold first_hop_edge. rewrite Hr, Hc, Hb.
  destruct (String.eqb_spec (rel_type rel) ""); done.
Qed.

Lemma second_hop_edge_inv record e :
  e ∈ second_hop_edge record →
  ∃ r2 c c2, rec_r2 record = Some r2 ∧ rec_connected record = Some c ∧
             rec_other_connected record = Some c2 ∧
             bool_Relationship r2 = true ∧ e = hop_edge r2 c c2.
Proof.
  unfold second_hop_edge.
  destruct (rec_r2 record) as [r2|]; [|by intros ?%elem_of_nil].
  destruct (rec_connected record) as [c|]; [|by intros ?%elem_of_nil].
  destruct (rec_other_connected record) as [c2|]; [|by intros ?%elem_of_nil].
  destruct (bool_Relationship r2) eqn:Hb; [|by intros ?%elem_of_nil].
  intros ->%list_elem_of_singleton. by exists r2, c, c2.
Qed.

Lemma second_hop_edge_intro record r2 c c2 :
  rec_r2 record = Some r2 → rec_connected record = Some c →
  rec_other_connected record = Some c2 → bool_Relationship r2 = true →
  second_hop_edge record = [hop_edge r2 c c2].
Proof.
  intros Hr2 Hc Hc2 Hb. unfold second_hop_edge. by rewrite Hr2, Hc, Hc2, Hb.
Qed.

(** Counting through a concatenation: when every [x] that satisfies [P]
    contributes an element that satisfies [Q], there are at least as many
    of the latter as of the former. *)
Lemma filter_flat_map_length {A B} (P : A → Prop) `{!∀ x, Decision (P x)}
    (Q : B → Prop) `{!∀ y, Decision (Q y)} (f : A → list B) (l : list A) :
  (∀ x, P x → ∃ y, y ∈ f x ∧ Q y) →
  (length (filter P l) ≤ length (filter Q (flat_map f l)))%nat.
Proof.
  intros Hf. induction l as [|x rest IH]; simpl; [done|].
  rewrite filter_cons, filter_app, length_app.
  destruct (decide (P x)) as [HP|_]; simpl; [|lia].
  destruct (Hf x HP) as (y & Hy & HQ).
  assert (y ∈ filter Q (f x)) as Hin by (by apply list_elem_of_filter).
  destruct (filter Q (f x)); [by apply elem_of_nil in Hin|]. simpl. lia.
Qed.

Lemma elem_of_flat_map_row_edges e records :
  e ∈ flat_map row_edges records ↔
  ∃ record, record ∈ records ∧
            (e ∈ first_hop_edge record ∨ e ∈ second_hop_edge record).
Proof.
  rewrite list_elem_of_In, in_flat_map. unfold row_edges.
  split; intros (record & Hin & He); exists record.
  - apply list_elem_of_In in Hin. apply list_elem_of_In in He.
    by rewrite elem_of_app in He.
  - split; apply list_elem_of_In; [done|]. by rewrite elem_of_app.
Qed.

(** ** The two JSON routes, as functions of what the driver answers *)

Lemma jsonify_result payload :
  (jsonify payload).2 =
  if serializable payload then inr payload else inl not_serializable.
Proof. unfold jsonify. by destruct (serializable payload). Qed.

Lemma jsonify_trace payload : (jsonify payload).1 = [].
Proof. unfold jsonify. by destruct (serializable payload). Qed.

Lemma get_article_graph_result d article_id :
  (get_article_graph d article_id).2 =
  if invalid_article_id article_id then inr (Json_error "Invalid article ID", 400%Z)
  else match session_fails d with
       | Some e => inl e
       | None =>
           match run_graph d article_id with
           | inl e => inl e
           | inr result =>
               match (for_each graph_step result.1 graph_init).2 with
               | inl e => inl e
               | inr st =>
                   match result.2 with
                   | Some e => inl e
                   | None =>
                       if serializable (Json_graph (nodes st) (edges st))
                       then inr (Json_graph (nodes st) (edges st), 200%Z)
                       else inl not_serializable
                   end
               end
           end
       end.
Proof.
  unfold get_article_graph. destruct (invalid_article_id article_id); [done|].
  rewrite with_session_result. destruct (session_fails d); [done|].
  repeat (rewrite bind_result; cbn [emit lift snd]).
  destruct (run_graph d article_id) as [e|result]; [done|].
  repeat (rewrite bind_result; cbn [emit lift snd]). rewrite for_in_result.
  destruct (for_each graph_step result.1 graph_init).2 as [e|st]; [done|].
  destruct result.2; [done|].
  rewrite bind_result, jsonify_result. by destruct (serializable _).
Qed.

Lemma get_article_content_result d article_id :
  (get_article_content d article_id).2 =
  if invalid_article_id article_id then inr (Json_error "Invalid article ID", 400%Z)
  else match session_fails d with
       | Some e => inl e
       | None =>
           match run_content d article_id with
           | inl e => inl e
           | inr (_, Some e) => inl e
           | inr ([], None) => inr (Json_error "Article not found", 404%Z)
           | inr (article :: _, None) =>
               if serializable (Json_article (article_json article))
               then inr (Json_article (article_json article), 200%Z)
               else inl not_serializable
           end
       end.
Proof.
  unfold get_article_content. destruct (invalid_article_id article_id); [done|].
  rewrite with_session_result. destruct (session_fails d); [done|].
  repeat (rewrite bind_result; cbn [emit lift snd]).
  destruct (run_content d article_id) as [e|[rows [e|]]]; [done| |];
    repeat (rewrite bind_result; cbn [emit lift snd]); destruct rows; try done.
  simpl. rewrite bind_result, jsonify_result. by destruct (serializable _).
Qed.

Lemma api_graph_inv d article_id ns es code :
  (api_graph d article_id).2 = inr (Json_graph ns es, code) →
  ∃ rows st,
    run_graph d article_id = inr (rows, None) ∧
    (for_each graph_step rows graph_init).2 = inr st ∧
    ns = nodes st ∧ es = edges st.
Proof.
  unfold api_graph. rewrite handle_result, get_article_graph_result.
  destruct (invalid_article_id article_id); [done|].
  destruct (session_fails d); [done|].
  destruct (run_graph d article_id) as [e|[rows err]]; [done|]. simpl.
  destruct (for_each graph_step rows graph_init).2 as [e|st] eqn:Hloop; [done|].
  destruct err; [done|]. destruct (serializable _); [|done].
  intros [= <- <- <-]. by exists rows, st.
Qed.

(** A graph that is answered was serialised. *)
Lemma api_graph_serializable d article_id ns es code :
  (api_graph d article_id).2 = inr (Json_graph ns es, code) →
  serializable (Json_graph ns es) = true ∧ code = 200%Z.
Proof.
  unfold api_graph. rewrite handle_result, get_article_graph_result.
  destruct (invalid_article_id article_id); [done|].
  destruct (session_fails d); [done|].
  destruct (run_graph d article_id) as [e|[rows err]]; [done|]. simpl.
  destruct (for_each graph_step rows graph_init).2 as [e|st]; [done|].
  destruct err; [done|]. destruct (serializable _) eqn:Hser; [|done].
  by intros [= <- <- <-].
Qed.

(** A graph response is the fold of [visit_row] and the concatenation of
    [row_edges] over the rows. *)
Lemma api_graph_shape d article_id ns es code :
  (api_graph d article_id).2 = inr (Json_graph ns es, code) →
  ∃ rows, run_graph d article_id = inr (rows, None) ∧
          es = flat_map row_edges rows ∧
          ns = nodes (visit_rows rows graph_init).
Proof.
  intros (rows & st & Hrun & Hloop & -> & ->)%api_graph_inv.
  apply for_each_graph_result in Hloop as (He & Hn & _).
  exists rows. by rewrite He, Hn.
Qed.

(** On every result the query can produce the loop does not raise: the
    graph route answers with the graph, or with 500 when a value of the
    graph cannot be serialised. *)
Lemma api_graph_total d article_id rows :
  invalid_article_id article_id = false →
  session_fails d = None →
  run_graph d article_id = inr (rows, None) →
  Forall row_wf rows →
  (api_graph d article_id).2 =
    let ns := nodes (visit_rows rows graph_init) in
    let es := flat_map row_edges rows in
    if serializable (Json_graph ns es) then inr (Json_graph ns es, 200%Z)
    else inr json_500.
Proof.
  intros Hvalid Hsess Hrun Hwf. unfold api_graph.
  rewrite handle_result, get_article_graph_result, Hvalid, Hsess, Hrun. simpl.
  destruct (for_each_graph_total rows graph_init Hwf) as [st Hloop].
  rewrite Hloop.
  apply for_each_graph_result in Hloop as (-> & -> & _). simpl.
  by destruct (serializable _).
Qed.

(** The emitted nodes are exactly the truthy nodes of the rows: nothing
    else, and in particular nothing looked up from the anchor, is added. *)
Lemma graph_nodes_from_rows d article_id ns es code rows err :
  (api_graph d article_id).2 = inr (Json_graph ns es, code) →
  run_graph d article_id = inr (rows, err) →
  ∀ x, x ∈ map node_id ns ↔
       ∃ record c, record ∈ rows ∧ truthy_row_node record c ∧ x = element_id c.
Proof.
  intros (rows' & Hrun' & _ & ->)%api_graph_shape Hrun.
  rewrite Hrun' in Hrun. injection Hrun as <- _. intros x.
  pose proof (visit_rows_ids rows' graph_init graph_init_inv x) as Hids.
  unfold node_ids_of in Hids. rewrite Hids. simpl.
  split; [|auto]. by intros [?%elem_of_nil|?].
Qed.

(** Referential integrity holds on the results all of whose nodes carry at
    least one property. *)
Lemma graph_edges_reference_nodes d article_id ns es code rows err :
  (api_graph d article_id).2 = inr (Json_graph ns es, code) →
  run_graph d article_id = inr (rows, err) →
  Forall row_nodes_truthy rows →
  ∀ e, e ∈ es → edge_from e ∈ map node_id ns ∧ edge_to e ∈ map node_id ns.
Proof.
  intros (rows' & Hrun' & -> & ->)%api_graph_shape Hrun Htruthy.
  rewrite Hrun' in Hrun. injection Hrun as <- _.
  intros e (record & Hin & He)%elem_of_flat_map_row_edges.
  pose proof (visit_rows_ids rows' graph_init graph_init_inv) as Hids.
  unfold node_ids_of in Hids.
  rewrite Forall_forall in Htruthy. destruct (Htruthy record Hin) as [Hc1 Hc2].
  assert (∀ c, rec_connected record = Some c ∨ rec_other_connected record = Some c →
               element_id c ∈ map node_id (nodes (visit_rows rows' graph_init))) as Hok.
  { intros c Hc. apply Hids. right. exists record, c.
    split; [done|]. split; [|done]. split; [done|]. destruct Hc; eauto. }
  destruct He as [He|He].
  - apply first_hop_edge_inv in He as (rel & c & ? & ? & _ & _ & ->).
    simpl. split; apply Hok; by left.
  - apply second_hop_edge_inv in He as (r2 & c & c2 & ? & ? & ? & _ & ->).
    simpl. split; apply Hok; [by left|by right].
Qed.

(** The label fallbacks of the two shapings. *)
Lemma get_absent items name default :
  has_key items name = false → get items name default = default.
Proof.
  induction items as [|[k v] rest IH]; simpl; [done|].
  destruct (String.eqb k name); simpl; [done|apply IH].
Qed.

Lemma shape_connected_label connected :
  has_key (node_items connected) "name" = false →
  has_key (node_items connected) "title" = false →
  node_label (shape_connected connected) =
    PyStr (lower (first_label connected) +:+ " " +:+ element_id connected).
Proof.
  intros Hname Htitle. unfold shape_connected; simpl.
  by rewrite (get_absent _ "name"), (get_absent _ "title").
Qed.

Lemma shape_connected2_label connected2 :
  has_key (node_items connected2) "name" = false →
  has_key (node_items connected2) "title" = false →
  node_label (shape_connected2 connected2) = PyStr (element_id connected2).
Proof.
  intros Hname Htitle. unfold shape_connected2; simpl.
  by rewrite (get_absent _ "name"), (get_absent _ "title").
Qed.

(** ** The grouping dictionaries of the index *)

Lemma key_eqb_refl k : key_eqb k k = true.
Proof.
  destruct k as [|b|z|s|y m d]; simpl;
    [done|by destruct b|lia|apply String.eqb_refl|].
  by rewrite !Z.eqb_refl.
Qed.

Lemma key_eqb_str s k : key_eqb (PyStr s) k = true → k = PyStr s.
Proof. destruct k; simpl; try done. by intros ->%String.eqb_eq. Qed.

Section dictionaries.
Context {V : Type}.
Implicit Types (d : pydict V) (k : pyval) (v : V) (f : V → V).

Lemma dict_contains_intro d k k' v :
  (k', v) ∈ d → key_eqb k' k = true → dict_contains k d = true.
Proof.
  intros Hin Hk. unfold dict_contains. apply existsb_exists.
  exists (k', v). split; [by apply list_elem_of_In|done].
Qed.

(** An update keeps every key, and the value of every key but the one
    it hits. *)
Lemma dict_alter_preserves f k0 d k v :
  (k, v) ∈ d → ∃ v', (k, v') ∈ dict_alter f k0 d ∧ (v' = v ∨ v' = f v).
Proof.
  induction d as [|[k1 v1] rest IH]; [by intros ?%elem_of_nil|].
  intros [[= -> ->]|Hin]%elem_of_cons; simpl.
  - destruct (key_eqb k1 k0); eexists; (split; [apply elem_of_cons; by left|]); auto.
  - destruct (key_eqb k1 k0).
    + exists v. split; [apply elem_of_cons; by right|auto].
    + destruct (IH Hin) as (v' & ? & ?). exists v'.
      split; [apply elem_of_cons; by right|done].
Qed.

Lemma dict_alter_hit f k0 d :
  dict_contains k0 d = true →
  ∃ k v, (k, f v) ∈ dict_alter f k0 d ∧ key_eqb k k0 = true.
Proof.
  induction d as [|[k1 v1] rest IH]; simpl; [done|].
  destruct (key_eqb k1 k0) eqn:Hk; simpl.
  - intros _. exists k1, v1. split; [apply elem_of_cons; by left|done].
  - intros (k & v & ? & ?)%IH. exists k, v.
    split; [apply elem_of_cons; by right|done].
Qed.

Lemma dict_set_has k v d :
  ∃ k', (k', v) ∈ dict_set k v d ∧ key_eqb k' k = true.
Proof.
  unfold dict_set. destruct (dict_contains k d) eqn:Hc.
  - destruct (dict_alter_hit (λ _, v) k d Hc) as (k' & ? & ? & ?). by exists k'.
  - exists k. split; [|apply key_eqb_refl].
    apply elem_of_app. right. by apply list_elem_of_singleton.
Qed.

Lemma dict_set_preserves k v d k' v' :
  (k', v') ∈ d → ∃ v'', (k', v'') ∈ dict_set k v d.
Proof.
  intros Hin. unfold dict_set. destruct (dict_contains k d).
  - destruct (dict_alter_preserves (λ _, v) k d k' v' Hin) as (v'' & ? & _).
    by exists v''.
  - exists v'. apply elem_of_app. by left.
Qed.
End dictionaries.

Lemma index_step_has_own bias_groups record :
  has_group (display_bias record) (display_source record)
            (index_step bias_groups record).
Proof.
  unfold index_step.
  set (b := display_bias record). set (s := display_source record).
  set (articles := map _ _).
  set (bg1 := if negb (dict_contains b bias_groups) then _ else _).
  assert (dict_contains b bg1 = true) as Hc.
  { subst bg1. destruct (dict_contains b bias_groups) eqn:Hc; simpl; [done|].
    destruct (dict_set_has b ([] : pydict (list IndexArticle)) bias_groups)
      as (k' & ? & ?).
    by eapply dict_contains_intro. }
  destruct (dict_alter_hit (dict_set s articles) b bg1 Hc) as (k & sources & Hin & Hk).
  destruct (dict_set_has s articles sources) as (k2 & Hin2 & Hk2).
  by exists k, (dict_set s articles sources), k2, articles.
Qed.

Lemma index_step_preserves b s bias_groups record :
  has_group b s bias_groups → has_group b s (index_step bias_groups record).
Proof.
  intros (k & sources & k2 & articles & Hin & Hk & Hin2 & Hk2).
  unfold index_step.
  set (articles' := map _ _).
  set (bg1 := if negb (dict_contains _ bias_groups) then _ else _).
  assert ((k, sources) ∈ bg1) as Hin1.
  { subst bg1.
    destruct (dict_contains (display_bias record) bias_groups) eqn:Hc; simpl; [done|].
    unfold dict_set. destruct (dict_contains _ _) eqn:Hc2; [done|].
    apply elem_of_app. by left. }
  destruct (dict_alter_preserves (dict_set (display_source record) articles')
              (display_bias record) bg1 k sources Hin1) as (v' & Hv' & [->| ->]).
  - by exists k, sources, k2, articles.
  - destruct (dict_set_preserves (display_source record) articles'
                sources k2 articles Hin2) as (a' & Ha').
    by exists k, (dict_set (display_source record) articles' sources), k2, a'.
Qed.

Lemma foldl_index_step_preserves b s records : ∀ bias_groups,
  has_group b s bias_groups → has_group b s (foldl index_step bias_groups records).
Proof.
  induction records as [|r rest IH]; intros bg H; simpl; [done|].
  by apply IH, index_step_preserves.
Qed.

(** Every row of the index query has its group in the dictionaries. *)
Lemma foldl_index_step_has records : ∀ bias_groups record,
  record ∈ records →
  has_group (display_bias record) (display_source record)
            (foldl index_step bias_groups records).
Proof.
  induction records as [|r rest IH]; intros bg record; [by intros ?%elem_of_nil|].
  intros [->|Hin]%elem_of_cons; simpl.
  - apply foldl_index_step_preserves, index_step_has_own.
  - by apply IH.
Qed.

Lemma py_lower_result v l : (py_lower v).2 = inr l → ∃ s, v = PyStr s ∧ l = lower s.
Proof. destruct v; simpl; try done. intros [= <-]. eauto. Qed.

Lemma source_group_result entry sg :
  (source_group entry).2 = inr sg →
  ∃ s, entry.1 = PyStr s ∧ sg_name sg = PyStr s ∧ sg_id sg = slug s ∧
       sg_articles sg = entry.2.
Proof.
  destruct entry as [name articles]. unfold source_group.
  rewrite bind_result. destruct (py_lower name).2 as [e|l] eqn:Hl; [done|].
  apply py_lower_result in Hl as (s & -> & ->). simpl. intros [= <-]. by exists s.
Qed.

Lemma bias_group_result entry g :
  (bias_group entry).2 = inr g →
  ∃ s, entry.1 = PyStr s ∧ bg_name g = PyStr s ∧ bg_id g = slug s ∧
       Forall2 (λ x sg, (source_group x).2 = inr sg) entry.2 (bg_sources g).
Proof.
  destruct entry as [bias sources]. unfold bias_group.
  rewrite bind_result.
  destruct (map_M source_group sources).2 as [e|source_list] eqn:Hs; [done|].
  rewrite bind_result. destruct (py_lower bias).2 as [e|l] eqn:Hl; [done|].
  apply py_lower_result in Hl as (s & -> & ->). simpl. intros [= <-].
  exists s. split_and!; try done. by apply map_M_result.
Qed.

Lemma index_result d groups code :
  (index d).2 = inr (Template_index groups, code) →
  ∃ rows, run_index d = inr (rows, None) ∧
          (map_M bias_group (foldl index_step [] rows)).2 = inr groups.
Proof.
  unfold index. rewrite try_except_result, with_session_result.
  destruct (session_fails d); [done|].
  repeat (rewrite bind_result; cbn [emit lift snd]).
  destruct (run_index d) as [e|[rows err]]; [done|].
  rewrite bind_result, for_in_result, for_each_pure. cbn [fst snd].
  destruct err; [done|]. rewrite bind_result.
  destruct (map_M bias_group _).2 as [e|gs] eqn:Hg; [done|].
  simpl. intros [= <- <-]. by exists rows.
Qed.

(** The index renders its groups whenever every display name is a string. *)
Lemma map_M_total {A B} (f : A → M B) l :
  (∀ x, x ∈ l → ∃ y, (f x).2 = inr y) → ∃ ys, (map_M f l).2 = inr ys.
Proof.
  induction l as [|x rest IH]; intros H; simpl; [by eexists|].
  destruct (H x) as [y Hy]; [apply elem_of_cons; by left|].
  destruct IH as [ys Hys]; [intros z Hz; apply H, elem_of_cons; by right|].
  exists (y :: ys). by rewrite bind_result, Hy, bind_result, Hys.
Qed.

(** ** The routes never fail on what a healthy store returns *)

(** The rows of the graph query are well formed. *)
Lemma graph_rows_wf st article_id : Forall row_wf (graph_rows st article_id).
Proof.
  apply Forall_forall. intros record Hin. apply list_elem_of_In in Hin.
  unfold graph_rows in Hin.
  apply in_flat_map in Hin as (a & _ & Hin).
  destruct (is_article a && elementId_eq a article_id); [|done].
  apply in_flat_map in Hin as (e & _ & Hin).
  destruct (String.eqb (start_id e) (element_id a)); [|done].
  destruct (node_by_id st (end_id e)) as [c|]; [|done].
  destruct (second_hops st a c) as [|h hops].
  - destruct Hin as [<-|[]]. split_and!; simpl; eauto. by intros [? [=]].
  - apply in_map_iff in Hin as (h' & <- & _). split_and!; simpl; eauto.
Qed.

Lemma dict_alter_from {V} (f : V → V) k0 (d : pydict V) k v' :
  (k, v') ∈ dict_alter f k0 d → ∃ v, (k, v) ∈ d ∧ (v' = v ∨ v' = f v).
Proof.
  induction d as [|[k1 v1] rest IH]; simpl; [by intros ?%elem_of_nil|].
  destruct (key_eqb k1 k0).
  - intros [[= -> ->]|Hin]%elem_of_cons.
    + exists v1. split; [apply elem_of_cons; by left|by right].
    + exists v'. split; [apply elem_of_cons; by right|by left].
  - intros [[= -> ->]|Hin]%elem_of_cons.
    + exists v1. split; [apply elem_of_cons; by left|by left].
    + destruct (IH Hin) as (v & ? & ?). exists v.
      split; [apply elem_of_cons; by right|done].
Qed.

Lemma dict_set_from {V} k (v : V) d k' v' :
  (k', v') ∈ dict_set k v d → (∃ v0, (k', v0) ∈ d) ∨ k' = k.
Proof.
  unfold dict_set. destruct (dict_contains k d).
  - intros (v0 & ? & _)%dict_alter_from. left. by exists v0.
  - intros [?|[= -> ->]%list_elem_of_singleton]%elem_of_app; [left|by right].
    by exists v'.
Qed.

Lemma index_step_str_keys bias_groups record :
  isinstance_str (display_bias record) = true →
  isinstance_str (display_source record) = true →
  str_keys bias_groups → str_keys (index_step bias_groups record).
Proof.
  intros Hb Hs Hkeys k sources Hin. unfold index_step in Hin.
  apply dict_alter_from in Hin as (sources0 & Hin & Hsrc).
  assert ((∃ v0, (k, v0) ∈ bias_groups ∧ (sources0 = v0)) ∨
          (k = display_bias record ∧ sources0 = [])) as Hk.
  { destruct (dict_contains (display_bias record) bias_groups) eqn:Hc;
      simpl in Hin; [left; by exists sources0|].
    unfold dict_set in Hin. rewrite Hc in Hin.
    apply elem_of_app in Hin as [?|[= -> ->]%list_elem_of_singleton];
      [left; by exists sources0|by right]. }
  assert (isinstance_str k = true ∧
          ∀ k2 articles, (k2, articles) ∈ sources0 → isinstance_str k2 = true)
    as [Hkstr Hinner].
  { destruct Hk as [(v0 & Hv0 & ->)|[-> ->]].
    - by apply (Hkeys k v0).
    - split; [done|]. by intros ?? ?%elem_of_nil. }
  split; [done|]. intros k2 articles Hin2.
  destruct Hsrc as [->| ->]; [by eapply Hinner|].
  apply dict_set_from in Hin2 as [[a0 ?]| ->]; [by eapply Hinner|done].
Qed.

Lemma foldl_index_step_str_keys records : ∀ bias_groups,
  (∀ record, record ∈ records →
     isinstance_str (display_bias record) = true ∧
     isinstance_str (display_source record) = true) →
  str_keys bias_groups → str_keys (foldl index_step bias_groups records).
Proof.
  induction records as [|r rest IH]; intros bg Hstr Hkeys; simpl; [done|].
  apply IH.
  - intros record Hin. apply Hstr, elem_of_cons. by right.
  - destruct (Hstr r) as [? ?]; [apply elem_of_cons; by left|].
    by apply index_step_str_keys.
Qed.

Lemma source_group_total entry :
  isinstance_str entry.1 = true → ∃ sg, (source_group entry).2 = inr sg.
Proof. destruct entry as [[| | |s|? ? ?] articles]; simpl; try done. by eexists. Qed.

Lemma bias_group_total entry :
  isinstance_str entry.1 = true →
  (∀ k2 articles, (k2, articles) ∈ entry.2 → isinstance_str k2 = true) →
  ∃ g, (bias_group entry).2 = inr g.
Proof.
  destruct entry as [bias sources]; simpl. intros Hb Hs.
  destruct (map_M_total source_group sources) as [sl Hsl].
  { intros [k2 articles] Hin. apply source_group_total. simpl. by eapply Hs. }
  unfold bias_group. rewrite bind_result, Hsl.
  destruct bias; try done. by eexists.
Qed.

(** The index renders its groups whenever every display name is a string. *)
Lemma index_renders d rows :
  session_fails d = None →
  run_index d = inr (rows, None) →
  (∀ record, record ∈ rows →
     isinstance_str (display_bias record) = true ∧
     isinstance_str (display_source record) = true) →
  ∃ groups, (index d).2 = inr (Template_index groups, 200%Z).
Proof.
  intros Hsess Hrun Hstr.
  destruct (map_M_total bias_group (foldl index_step [] rows)) as [groups Hg].
  { intros [k sources] Hin.
    assert (str_keys (foldl index_step [] rows)) as Hkeys.
    { apply foldl_index_step_str_keys; [done|]. by intros ?? ?%elem_of_nil. }
    destruct (Hkeys k sources Hin). by apply bias_group_total. }
  exists groups. unfold index.
  rewrite try_except_result, with_session_result, Hsess.
  repeat (rewrite bind_result; cbn [emit lift snd]). rewrite Hrun.
  rewrite bind_result, for_in_result, for_each_pure. cbn [fst snd].
  rewrite bind_result.
  change (foldl (λ g r, index_step g r) [] rows) with (foldl index_step [] rows).
  by rewrite Hg.
Qed.

(** Over a store the graph loop never raises: the route answers with the
    graph, or with 500 when a value of the graph cannot be serialised. *)
Lemma api_graph_on_store st index_rows content s :
  s ≠ "" →
  (api_graph (store_driver st index_rows content) (PyStr s)).2 =
    let ns := nodes (visit_rows (graph_rows st (PyStr s)) graph_init) in
    let es := flat_map row_edges (graph_rows st (PyStr s)) in
    if serializable (Json_graph ns es) then inr (Json_graph ns es, 200%Z)
    else inr json_500.
Proof.
  intros Hs. apply api_graph_total; [|done|done|apply graph_rows_wf].
  unfold invalid_article_id; simpl. by destruct (String.eqb_spec s "").
Qed.

End routes.

(** The group of a node without labels: ["Entity"] is a string of ASCII
    characters. *)
Lemma group_without_labels c :
  labels c = [] →
  node_group (shape_connected c) = "entity" ∧
  node_group (shape_connected2 c) = "entity".
Proof. intros H. unfold shape_connected, shape_connected2, first_label. by rewrite H. Qed.

(** * The claims *)

(** ** C1: the first-hop edge *)

(** C1, as stated, fails on [mixed_store] with anchor ["4:db:0"] in two
    ways.  The second-hop edge that leads from Ana back to the article has
    the anchor's identifier as its [to] field; and the row whose first-hop
    relationship is typed and whose connected node, the place, exists but
    carries no property (so that Python's truth test on it fails) emits no
    edge on that node at all. *)
Lemma first_hop_claim_fails :
  ∃ ns es,
    (api_graph (store_driver mixed_store [] vest_content) (PyStr "4:db:0")).2
      = inr (Json_graph ns es, 200%Z) ∧
    (∃ e, e ∈ es ∧ edge_to e = "4:db:0") ∧
    (∃ record rel c,
       record ∈ graph_rows mixed_store (PyStr "4:db:0") ∧
       rec_r record = Some rel ∧ rel_type rel ≠ "" ∧
       rec_connected record = Some c ∧
       ∀ e, e ∈ es → edge_from e ≠ element_id c).
Proof.
  eexists _, _. split; [vm_compute; reflexivity|]. split.
  - eexists. split; [apply elem_of_cons; right; apply elem_of_cons; left; reflexivity|].
    reflexivity.
  - exists (mkGraphRecord (Some pominje_mesto) (Some mesto) None None),
      pominje_mesto, mesto.
    split_and!; [|done|done|done|].
    + vm_compute. apply elem_of_cons; right; apply elem_of_cons; by left.
    + intros e He.
      repeat (apply elem_of_cons in He as [->|He]; [by vm_compute|]).
      by apply elem_of_nil in He.
Qed.

(** C1, amended.  For every row of a graph response whose first-hop
    relationship has a non-empty type and whose connected node is truthy
    (present, with at least one property), the response holds an edge whose
    [from] and [to] are both the connected node's identifier, labelled with
    the relationship's type and carrying its properties.  Conversely every
    emitted edge is such a loop on the connected node of a row, or leads
    from the connected node of a row to its other connected node: an edge
    endpoint is always the identifier of a node returned in a row, never
    one looked up from the anchor. *)
Theorem first_hop_edge_is_loop {L : StrLower} d article_id ns es code rows err :
  (api_graph d article_id).2 = inr (Json_graph ns es, code) →
  run_graph d article_id = inr (rows, err) →
  (∀ record rel c,
     record ∈ rows → rec_r record = Some rel → rel_type rel ≠ "" →
     rec_connected record = Some c → bool_Node c = true →
     ∃ e, e ∈ es ∧ edge_from e = element_id c ∧ edge_to e = element_id c ∧
          edge_label e = rel_type rel ∧ edge_properties e = rel_items rel) ∧
  (∀ e, e ∈ es →
     ∃ record, record ∈ rows ∧
       ((∃ rel c, rec_r record = Some rel ∧ rec_connected record = Some c ∧
                  edge_from e = element_id c ∧ edge_to e = element_id c ∧
                  edge_label e = rel_type rel) ∨
        (∃ r2 c c2, rec_r2 record = Some r2 ∧ rec_connected record = Some c ∧
                    rec_other_connected record = Some c2 ∧
                    edge_from e = element_id c ∧ edge_to e = element_id c2 ∧
                    edge_label e = rel_type r2))).
Proof.
  intros (rows' & Hrun' & -> & _)%api_graph_shape Hrun.
  rewrite Hrun' in Hrun. injection Hrun as <- _. split.
  - intros record rel c Hin Hr Ht Hc Hb. exists (loop_edge rel c).
    split; [|done]. apply elem_of_flat_map_row_edges. exists record.
    split; [done|left]. rewrite (first_hop_edge_intro record rel c) by done.
    apply list_elem_of_singleton. done.
  - intros e (record & Hin & [He|He])%elem_of_flat_map_row_edges;
      exists record; (split; [done|]).
    + apply first_hop_edge_inv in He as (rel & c & ? & ? & _ & _ & ->).
      left. by exists rel, c.
    + apply second_hop_edge_inv in He as (r2 & c & c2 & ? & ? & ? & _ & ->).
      right. by exists r2, c, c2.
Qed.

(** The amended C1 on [newsroom_store]. *)
Lemma first_hop_edge_is_loop_witness :
  (api_graph (store_driver newsroom_store [] vest_content) (PyStr "4:db:0")).2
    = inr (Json_graph newsroom_nodes newsroom_edges, 200%Z) ∧
  run_graph (store_driver newsroom_store [] vest_content) (PyStr "4:db:0")
    = inr (graph_rows newsroom_store (PyStr "4:db:0"), None) ∧
  ∀ e, e ∈ newsroom_edges →
    ∃ record, record ∈ graph_rows newsroom_store (PyStr "4:db:0") ∧
      ((∃ rel c, rec_r record = Some rel ∧ rec_connected record = Some c ∧
                 edge_from e = element_id c ∧ edge_to e = element_id c ∧
                 edge_label e = rel_type rel) ∨
       (∃ r2 c c2, rec_r2 record = Some r2 ∧ rec_connected record = Some c ∧
                   rec_other_connected record = Some c2 ∧
                   edge_from e = element_id c ∧ edge_to e = element_id c2 ∧
                   edge_label e = rel_type r2)).
Proof.
  split; [vm_compute; reflexivity|]. split; [reflexivity|].
  apply (first_hop_edge_is_loop (store_driver newsroom_store [] vest_content) (PyStr "4:db:0")
           newsroom_nodes newsroom_edges 200%Z
           (graph_rows newsroom_store (PyStr "4:db:0")) None);
    [vm_compute; reflexivity|reflexivity].
Defined.

(** ** C2: the anchor and the node list *)

(** C2 fails on [back_edge_store]: the article ["4:db:0"] mentions Ana, and
    a relationship of Ana whose [article] property is the article's title
    leads back to the article.  The query returns the article as
    [other_connected], and the loop, which never compares an identifier
    with [article_id], emits it as a node. *)
Theorem anchor_emitted_as_node :
  is_article vest = true ∧ element_id vest = "4:db:0" ∧
  graph_rows back_edge_store (PyStr "4:db:0")
    = [mkGraphRecord (Some pominje) (Some ana) (Some autor) (Some vest)] ∧
  ∃ ns es,
    (api_graph (store_driver back_edge_store [] vest_content) (PyStr "4:db:0")).2
      = inr (Json_graph ns es, 200%Z) ∧
    "4:db:0" ∈ map node_id ns.
Proof.
  split_and!; [done|done|by vm_compute|].
  eexists _, _. split; [vm_compute; reflexivity|].
  simpl. apply elem_of_cons; right. apply elem_of_cons; by left.
Qed.

(** ** C3: node deduplication *)

(** C3.  In every graph response no identifier occurs twice in the node
    list, whatever the rows are and whichever hop they name a node in. *)
Theorem graph_nodes_no_duplicates {L : StrLower} d article_id ns es code :
  (api_graph d article_id).2 = inr (Json_graph ns es, code) →
  NoDup (map node_id ns).
Proof.
  intros (rows & _ & _ & ->)%api_graph_shape.
  apply (visit_rows_inv rows graph_init graph_init_inv).
Qed.

(** C3 on [newsroom_store], where Ana is named by two rows and the company
    by both hops. *)
Lemma graph_nodes_no_duplicates_witness :
  (api_graph (store_driver newsroom_store [] vest_content) (PyStr "4:db:0")).2
    = inr (Json_graph newsroom_nodes newsroom_edges, 200%Z) ∧
  NoDup (map node_id newsroom_nodes).
Proof.
  split; [vm_compute; reflexivity|].
  apply (graph_nodes_no_duplicates (store_driver newsroom_store [] vest_content)
           (PyStr "4:db:0") newsroom_nodes newsroom_edges 200%Z).
  vm_compute; reflexivity.
Defined.

(** ** C4: the label fallback *)

(** C4 fails on [unnamed_store]: the company, reached by the second hop,
    has the label [Organizacija] and neither a [name] nor a [title].  Its
    emitted label is the bare identifier ["4:db:3"], not
    ["organizacija 4:db:3"]: line 180 formats the identifier alone, where
    line 159 formats the node type and the identifier. *)
Theorem second_hop_label_is_bare_identifier :
  has_key (node_items firma) "name" = false ∧
  has_key (node_items firma) "title" = false ∧
  labels firma = ["Organizacija"] ∧
  (api_graph (store_driver unnamed_store [] vest_content) (PyStr "4:db:0")).2
    = inr (Json_graph unnamed_nodes unnamed_edges, 200%Z) ∧
  ∃ n, n ∈ unnamed_nodes ∧ node_id n = element_id firma ∧
       node_label n = PyStr "4:db:3" ∧
       node_label n ≠ PyStr "organizacija 4:db:3".
Proof.
  split_and!; [done|done|done|by vm_compute|].
  eexists. split; [apply elem_of_cons; right; apply elem_of_cons; by left|].
  done.
Qed.

(** ** C5: an identifier that matches no article *)

(** C5.  When the identifier is a non-empty string, the session opens and
    the content query yields no record, the content route answers 404 with
    the body [{"error": "Article not found"}]; it has issued the one query
    and logged nothing. *)
Theorem unknown_article_not_found d s :
  s ≠ "" →
  session_fails d = None →
  run_content d (PyStr s) = inr ([], None) →
  api_article d (PyStr s) =
    ([Session_open; Session_run Content_query (Some (PyStr s)); Session_close],
     inr (Json_error "Article not found", 404%Z)).
Proof.
  intros Hs Hsess Hrun.
  unfold api_article, handle_neo4j_exceptions, get_article_content,
    invalid_article_id, with_session; simpl.
  destruct (String.eqb_spec s ""); [done|]. simpl.
  rewrite Hsess. unfold_M. by rewrite Hrun.
Qed.

(** C5 at ["4:db:1"], the identifier of Ana, for which the content query
    yields no record. *)
Lemma unknown_article_not_found_witness :
  ("4:db:1" ≠ "" ∧
   session_fails (store_driver newsroom_store [] vest_content) = None ∧
   run_content (store_driver newsroom_store [] vest_content) (PyStr "4:db:1") = inr ([], None)) ∧
  api_article (store_driver newsroom_store [] vest_content) (PyStr "4:db:1") =
    ([Session_open; Session_run Content_query (Some (PyStr "4:db:1")); Session_close],
     inr (Json_error "Article not found", 404%Z)).
Proof.
  split; [split_and!; [discriminate|reflexivity|vm_compute; reflexivity]|].
  apply (unknown_article_not_found (store_driver newsroom_store [] vest_content) "4:db:1");
    [discriminate|reflexivity|vm_compute; reflexivity].
Defined.

(** ** C6: malformed identifiers *)

(** C6.  For an identifier that is the empty string or is not a string,
    both routes answer 400 with the body [{"error": "Invalid article ID"}]
    and their trace is empty: no session was opened and no query issued. *)
Theorem malformed_identifier_rejected {L : StrLower} d article_id :
  article_id = PyStr "" ∨ (∀ s, article_id ≠ PyStr s) →
  api_graph d article_id = ([], inr (Json_error "Invalid article ID", 400%Z)) ∧
  api_article d article_id = ([], inr (Json_error "Invalid article ID", 400%Z)).
Proof.
  intros H.
  assert (invalid_article_id article_id = true) as Hinv.
  { destruct H as [->|H]; [done|].
    destruct article_id as [|b|z|s|? ? ?]; unfold invalid_article_id; simpl;
      rewrite ?orb_true_r; try done. by destruct (H s). }
  unfold api_graph, api_article, handle_neo4j_exceptions, get_article_graph,
    get_article_content. by rewrite Hinv.
Qed.

(** C6 at the empty string, over a driver whose sessions would fail. *)
Lemma malformed_identifier_rejected_witness :
  (PyStr "" = PyStr "" ∨ (∀ s, PyStr "" ≠ PyStr s)) ∧
  api_graph down_driver (PyStr "")
    = ([], inr (Json_error "Invalid article ID", 400%Z)) ∧
  api_article down_driver (PyStr "")
    = ([], inr (Json_error "Invalid article ID", 400%Z)).
Proof.
  split; [left; reflexivity|].
  apply (malformed_identifier_rejected down_driver (PyStr "")).
  left; reflexivity.
Defined.

(** ** C7: store errors *)

(** C7.  For a well-formed identifier, whenever the store fails while the
    graph route or the content route is served -- on opening the session,
    on running the query or while the records are fetched -- the route
    answers 500 with the body [{"error": "Database error occurred"}], a
    constant that carries nothing of the exception. *)
Theorem store_errors_answer_500 {L : StrLower} d s e :
  s ≠ "" →
  (store_error d (run_graph d (PyStr s)) e →
   (api_graph d (PyStr s)).2 = inr (Json_error "Database error occurred", 500%Z)) ∧
  (store_error d (run_content d (PyStr s)) e →
   (api_article d (PyStr s)).2 = inr (Json_error "Database error occurred", 500%Z)).
Proof.
  intros Hs.
  assert (invalid_article_id (PyStr s) = false) as Hvalid.
  { unfold invalid_article_id; simpl. by destruct (String.eqb_spec s ""). }
  split; intros Herr.
  - unfold api_graph. rewrite handle_result, get_article_graph_result, Hvalid.
    destruct (session_fails d) as [e'|] eqn:Hsess; [done|].
    destruct Herr as [?|[->|[rows ->]]]; [congruence|done|]. simpl.
    by destruct (for_each graph_step rows graph_init).2.
  - unfold api_article. rewrite handle_result, get_article_content_result, Hvalid.
    destruct (session_fails d) as [e'|] eqn:Hsess; [done|].
    destruct Herr as [?|[->|[rows ->]]]; [congruence|done|by destruct rows].
Qed.

(** C7 on a driver that cannot connect. *)
Lemma store_errors_answer_500_witness :
  "4:db:0" ≠ "" ∧
  (api_graph down_driver (PyStr "4:db:0")).2
    = inr (Json_error "Database error occurred", 500%Z) ∧
  (api_article down_driver (PyStr "4:db:0")).2
    = inr (Json_error "Database error occurred", 500%Z).
Proof.
  split; [discriminate|].
  destruct (store_errors_answer_500 down_driver "4:db:0"
              (Neo4jError "Couldn't connect to localhost:7687")) as [Hg Hc];
    [discriminate|].
  split; [apply Hg|apply Hc]; left; reflexivity.
Defined.

(** ** C8: the edge list is not deduplicated *)

(** C8, as stated, fails on [crossroads_store].  The relationship from the
    article to the place occurs in both rows of the result, and the
    response holds no entry for it at all: the place carries no property,
    so that the guard [rel.type and connected] of line 167 fails on both
    rows.  The two entries of the response are those of the second hops. *)
Lemma repeated_relationship_without_entry :
  graph_rows crossroads_store (PyStr "4:db:0")
    = [mkGraphRecord (Some pominje_mesto) (Some mesto) (Some nalazi_se) (Some ana);
       mkGraphRecord (Some pominje_mesto) (Some mesto) (Some vodi_u) (Some grad)] ∧
  rel_type pominje_mesto = "POMINJE" ∧
  ∃ ns es,
    (api_graph (store_driver crossroads_store [] vest_content) (PyStr "4:db:0")).2
      = inr (Json_graph ns es, 200%Z) ∧
    es = [hop_edge nalazi_se mesto ana; hop_edge vodi_u mesto grad] ∧
    ∀ e, e ∈ es → edge_label e ≠ "POMINJE".
Proof.
  split_and!; [by vm_compute|done|].
  eexists _, _. split; [vm_compute; reflexivity|]. split; [done|].
  intros e He.
  repeat (apply elem_of_cons in He as [->|He]; [by vm_compute|]).
  by apply elem_of_nil in He.
Qed.

(** C8, amended.  The edge list of a graph response is not deduplicated:
    a first-hop relationship with a non-empty type, returned with a
    connected node that is truthy (one that carries at least one
    property), has at least as many entries in [edges] as there are rows
    that return it, each of them the loop of lines 168-173; and a
    second-hop relationship that is truthy has at least as many entries
    as there are rows that return it, each of them the edge of lines
    187-192.  Every entry of [edges] is the entry of such a row. *)
Theorem repeated_relationships_yield_repeated_edges {L : StrLower}
    d article_id ns es code rows err :
  (api_graph d article_id).2 = inr (Json_graph ns es, code) →
  run_graph d article_id = inr (rows, err) →
  (∀ rel c, rel_type rel ≠ "" → bool_Node c = true →
     (length (filter (λ record, rec_r record = Some rel ∧
                                rec_connected record = Some c) rows)
      ≤ length (filter (λ e, e = loop_edge rel c) es))%nat) ∧
  (∀ r2 c c2, bool_Relationship r2 = true →
     (length (filter (λ record, rec_r2 record = Some r2 ∧
                                rec_connected record = Some c ∧
                                rec_other_connected record = Some c2) rows)
      ≤ length (filter (λ e, e = hop_edge r2 c c2) es))%nat) ∧
  (∀ e, e ∈ es →
     ∃ record, record ∈ rows ∧
       ((∃ rel c, rec_r record = Some rel ∧ rec_connected record = Some c ∧
                  rel_type rel ≠ "" ∧ bool_Node c = true ∧
                  e = loop_edge rel c) ∨
        (∃ r2 c c2, rec_r2 record = Some r2 ∧ rec_connected record = Some c ∧
                    rec_other_connected record = Some c2 ∧
                    bool_Relationship r2 = true ∧ e = hop_edge r2 c c2))).
Proof.
  intros (rows' & Hrun' & -> & _)%api_graph_shape Hrun.
  rewrite Hrun' in Hrun. injection Hrun as <- _. split_and!.
  - intros rel c Ht Hb. apply filter_flat_map_length.
    intros record [Hr Hc]. exists (loop_edge rel c). split; [|done].
    unfold row_edges. apply elem_of_app. left.
    rewrite (first_hop_edge_intro record rel c) by done.
    by apply list_elem_of_singleton.
  - intros r2 c c2 Hb. apply filter_flat_map_length.
    intros record (Hr2 & Hc & Hc2). exists (hop_edge r2 c c2). split; [|done].
    unfold row_edges. apply elem_of_app. right.
    rewrite (second_hop_edge_intro record r2 c c2) by done.
    by apply list_elem_of_singleton.
  - intros e (record & Hin & [He|He])%elem_of_flat_map_row_edges;
      exists record; (split; [done|]).
    + apply first_hop_edge_inv in He as (rel & c & ? & ? & ? & ? & ->).
      left. by exists rel, c.
    + apply second_hop_edge_inv in He as (r2 & c & c2 & ? & ? & ? & ? & ->).
      right. by exists r2, c, c2.
Qed.

(** The amended C8 on [newsroom_store]: the relationship from the article
    to Ana is returned in two rows, and the response holds two entries
    for it. *)
Lemma repeated_relationships_yield_repeated_edges_witness :
  (api_graph (store_driver newsroom_store [] vest_content) (PyStr "4:db:0")).2
    = inr (Json_graph newsroom_nodes newsroom_edges, 200%Z) ∧
  run_graph (store_driver newsroom_store [] vest_content) (PyStr "4:db:0")
    = inr (graph_rows newsroom_store (PyStr "4:db:0"), None) ∧
  rel_type pominje ≠ "" ∧ bool_Node ana = true ∧
  length (filter (λ record, rec_r record = Some pominje ∧
                            rec_connected record = Some ana)
                 (graph_rows newsroom_store (PyStr "4:db:0"))) = 2 ∧
  (2 ≤ length (filter (λ e, e = loop_edge pominje ana) newsroom_edges))%nat.
Proof.
  split; [vm_compute; reflexivity|]. split; [reflexivity|].
  split; [discriminate|]. split; [reflexivity|].
  split; [vm_compute; reflexivity|].
  destruct (repeated_relationships_yield_repeated_edges
              (store_driver newsroom_store [] vest_content) (PyStr "4:db:0")
              newsroom_nodes newsroom_edges 200%Z
              (graph_rows newsroom_store (PyStr "4:db:0")) None) as (Hfirst & _ & _);
    [vm_compute; reflexivity|reflexivity|].
  apply (Hfirst pominje ana); [discriminate|reflexivity].
Defined.

(** ** C9: the index groups *)

(** C9, as stated, fails on the literal labels: for a row without bias and
    without source the group names are ["Nepoznat bias"] and
    ["Nepoznat izvor"], not ["unknown bias"] and ["unknown source"]. *)
Lemma sentinel_is_not_unknown_bias :
  (index (store_driver newsroom_store [mkIndexRecord PyNone PyNone [vest]] vest_content)).2
    = inr (Template_index
             [ {| bg_id := "nepoznat-bias"; bg_name := PyStr "Nepoznat bias";
                  bg_sources :=
                    [ {| sg_id := "nepoznat-izvor"; sg_name := PyStr "Nepoznat izvor";
                         sg_articles :=
                           [index_article (PyStr "Nepoznat izvor")
                              (PyStr "Nepoznat bias") vest] |} ] |} ],
           200%Z) ∧
  PyStr "Nepoznat bias" ≠ PyStr "unknown bias" ∧
  PyStr "Nepoznat izvor" ≠ PyStr "unknown source".
Proof. split_and!; [by vm_compute|done|done]. Qed.

(** C9, amended.  When the index renders its groups: every row of the
    index query has a bias group and, inside it, a source group that bear
    the row's display names; a row whose bias is missing (or otherwise
    falsy) is under the bias group named ["Nepoznat bias"], a row whose
    source is missing under a source group named ["Nepoznat izvor"]; and
    the [id] of every bias group and of every source group is its name,
    lower-cased, with each space replaced by a hyphen. *)
Theorem index_groups_named_and_slugged {L : StrLower} d groups code rows err :
  (index d).2 = inr (Template_index groups, code) →
  run_index d = inr (rows, err) →
  (∀ record, record ∈ rows →
     ∃ g sg, g ∈ groups ∧ sg ∈ bg_sources g ∧
             bg_name g = display_bias record ∧ sg_name sg = display_source record ∧
             (truthy (rec_bias record) = false → bg_name g = PyStr "Nepoznat bias") ∧
             (truthy (rec_source record) = false → sg_name sg = PyStr "Nepoznat izvor")) ∧
  (∀ g, g ∈ groups →
     (∃ s, bg_name g = PyStr s ∧ bg_id g = replace " " "-" (lower s)) ∧
     ∀ sg, sg ∈ bg_sources g →
       ∃ s, sg_name sg = PyStr s ∧ sg_id sg = replace " " "-" (lower s)).
Proof.
  intros (rows' & Hrun' & Hgroups)%index_result Hrun.
  rewrite Hrun' in Hrun. injection Hrun as <- _.
  apply map_M_result in Hgroups. split.
  - intros record Hin.
    destruct (foldl_index_step_has rows' [] record Hin)
      as (k & sources & k2 & articles & Hk & Hkb & Hk2 & Hk2s).
    destruct (proj1 (list_elem_of_lookup _ _) Hk) as [i Hi].
    destruct (Forall2_lookup_l _ _ _ _ _ Hgroups Hi) as (g & Hg & Hres).
    apply bias_group_result in Hres as (s & Hs & Hname & _ & Hsrc). simpl in *. subst k.
    destruct (proj1 (list_elem_of_lookup _ _) Hk2) as [j Hj].
    destruct (Forall2_lookup_l _ _ _ _ _ Hsrc Hj) as (sg & Hsg & Hres).
    apply source_group_result in Hres as (t & Ht & Hname2 & _ & _). simpl in *. subst k2.
    apply key_eqb_str in Hkb, Hk2s.
    exists g, sg. split_and!.
    + by eapply list_elem_of_lookup_2.
    + by eapply list_elem_of_lookup_2.
    + congruence.
    + congruence.
    + intros Hf. rewrite Hname, <-Hkb. unfold display_bias, py_or. by rewrite Hf.
    + intros Hf. rewrite Hname2, <-Hk2s. unfold display_source, py_or. by rewrite Hf.
  - intros g Hg.
    destruct (proj1 (list_elem_of_lookup _ _) Hg) as [i Hi].
    destruct (Forall2_lookup_r _ _ _ _ _ Hgroups Hi) as (entry & _ & Hres).
    apply bias_group_result in Hres as (s & _ & Hname & Hid & Hsrc).
    split; [by exists s|].
    intros sg Hsg.
    destruct (proj1 (list_elem_of_lookup _ _) Hsg) as [j Hj].
    destruct (Forall2_lookup_r _ _ _ _ _ Hsrc Hj) as (e2 & _ & Hres).
    apply source_group_result in Hres as (t & _ & ? & ? & _). by exists t.
Qed.

(** The amended C9 on [index_rows_example]. *)
Lemma index_groups_named_and_slugged_witness :
  (index (store_driver newsroom_store index_rows_example vest_content)).2
    = inr (Template_index index_groups_example, 200%Z) ∧
  run_index (store_driver newsroom_store index_rows_example vest_content)
    = inr (index_rows_example, None) ∧
  ∀ g, g ∈ index_groups_example →
    (∃ s, bg_name g = PyStr s ∧ bg_id g = replace " " "-" (lower s)) ∧
    ∀ sg, sg ∈ bg_sources g →
      ∃ s, sg_name sg = PyStr s ∧ sg_id sg = replace " " "-" (lower s).
Proof.
  split; [vm_compute; reflexivity|]. split; [reflexivity|].
  apply (index_groups_named_and_slugged
           (store_driver newsroom_store index_rows_example vest_content)
           index_groups_example 200%Z index_rows_example None);
    [vm_compute; reflexivity|reflexivity].
Defined.

(** ** C10: edges and the nodes they name *)

(** C10 fails on [bare_node_store]: the article ["4:db:0"] mentions a place
    that carries no property, and the place leads to Ana.  The place is
    falsy, so the guard of line 155 skips it and the guard of line 167
    skips its first-hop edge; the second-hop edge, guarded by [r2] alone,
    is emitted with the place as [from], which no node of the response
    has as [id]. *)
Theorem edge_endpoint_without_node :
  graph_rows bare_node_store (PyStr "4:db:0")
    = [mkGraphRecord (Some pominje_mesto) (Some mesto) (Some nalazi_se) (Some ana)] ∧
  bool_Node mesto = false ∧
  ∃ ns es,
    (api_graph (store_driver bare_node_store [] vest_content) (PyStr "4:db:0")).2
      = inr (Json_graph ns es, 200%Z) ∧
    map node_id ns = ["4:db:1"] ∧
    ∃ e, e ∈ es ∧ edge_from e = "4:db:2" ∧ edge_from e ∉ map node_id ns.
Proof.
  split_and!; [by vm_compute|done|].
  eexists _, _. split; [vm_compute; reflexivity|]. split; [done|].
  eexists. split; [apply elem_of_cons; by left|]. split; [done|].
  simpl. by intros [=]%list_elem_of_singleton.
Qed.

(** * Further properties of the routes *)

Section further.
Context {L : StrLower}.

Lemma bind_trace {A B} (m : M A) (k : A → M B) :
  (m ≫= k).1 = m.1 ++ match m.2 with inl _ => [] | inr a => (k a).1 end.
Proof.
  destruct m as [t [e|a]]; simpl; [by rewrite app_nil_r|].
  unfold mbind, M_bind, bind. by destruct (k a).
Qed.

Lemma graph_step_trace st record : (graph_step st record).1 = [].
Proof.
  destruct record as [[rel|] [c|] [r2|] [c2|]];
    unfold graph_step, truthy_node, truthy_rel; unfold_M; simpl;
    repeat (case_match; simpl in *; simplify_eq); done.
Qed.

Lemma for_each_trace {S R} (step : S → R → M S) records :
  (∀ s r, (step s r).1 = []) → ∀ s, (for_each step records s).1 = [].
Proof.
  intros Hstep. induction records as [|r rest IH]; intros s; [done|].
  simpl. rewrite bind_trace, Hstep. simpl. destruct (step s r).2; [done|apply IH].
Qed.

Lemma for_in_trace {S R} (result : stream R) (step : S → R → M S) s :
  (∀ s r, (step s r).1 = []) → (for_in result step s).1 = [].
Proof.
  intros Hstep. unfold for_in. rewrite bind_trace, for_each_trace by done.
  simpl. destruct (for_each step result.1 s).2; [done|]. by destruct result.2.
Qed.

Lemma map_M_trace {A B} (f : A → M B) l :
  (∀ x, (f x).1 = []) → (map_M f l).1 = [].
Proof.
  intros Hf. induction l as [|x rest IH]; [done|].
  simpl. rewrite bind_trace, Hf. simpl. destruct (f x).2; [done|].
  rewrite bind_trace, IH. simpl. by destruct (map_M f rest).2.
Qed.

Lemma source_group_trace entry : (source_group entry).1 = [].
Proof. by destruct entry as [[| | |s|? ? ?] articles]. Qed.

Lemma bias_group_trace entry : (bias_group entry).1 = [].
Proof.
  destruct entry as [bias sources]. unfold bias_group.
  rewrite bind_trace, map_M_trace by apply source_group_trace. simpl.
  destruct (map_M source_group sources).2; [done|]. by destruct bias.
Qed.

Lemma with_session_trace {A} d (m : M A) :
  (with_session d m).1 =
  match session_fails d with
  | Some _ => []
  | None => Session_open :: m.1 ++ [Session_close]
  end.
Proof. unfold with_session. destruct (session_fails d); [done|]. by destruct m. Qed.

Lemma try_except_trace {A} (m : M A) h :
  (try_except m h).1 = m.1 ++ match m.2 with inl e => (h e).1 | inr _ => [] end.
Proof.
  destruct m as [t [e|a]]; simpl; [|by rewrite app_nil_r]. by destruct (h e).
Qed.

Lemma get_article_graph_trace d article_id :
  (get_article_graph d article_id).1 =
  if invalid_article_id article_id then []
  else match session_fails d with
       | Some _ => []
       | None =>
           Session_open :: Session_run Graph_query (Some article_id) ::
           match run_graph d article_id with
           | inl _ => []
           | inr _ => [Stdout_print ("Query executed for article_id: "
                                     +:+ py_str article_id)]
           end ++ [Session_close]
       end.
Proof.
  unfold get_article_graph. destruct (invalid_article_id article_id); [done|].
  rewrite with_session_trace. destruct (session_fails d); [done|].
  repeat (rewrite bind_trace; cbn [emit lift fst snd]).
  destruct (run_graph d article_id) as [e|result]; [done|].
  repeat (rewrite bind_trace; cbn [emit lift fst snd]).
  rewrite for_in_trace by apply graph_step_trace. simpl.
  destruct (for_in result graph_step graph_init).2; [done|].
  rewrite bind_trace, jsonify_trace. simpl. by destruct (jsonify _).2.
Qed.

Lemma get_article_content_trace d article_id :
  (get_article_content d article_id).1 =
  if invalid_article_id article_id then []
  else match session_fails d with
       | Some _ => []
       | None => [Session_open; Session_run Content_query (Some article_id);
                  Session_close]
       end.
Proof.
  unfold get_article_content. destruct (invalid_article_id article_id); [done|].
  rewrite with_session_trace. destruct (session_fails d); [done|].
  repeat (rewrite bind_trace; cbn [emit lift fst snd]).
  destruct (run_content d article_id) as [e|[rows [e|]]]; [done| |];
    repeat (rewrite bind_trace; cbn [emit lift fst snd]);
    destruct rows; simpl; try done.
  rewrite bind_trace, jsonify_trace. simpl. by destruct (jsonify _).2.
Qed.

Lemma handle_neo4j_trace {A} (f : A → M response) args :
  (handle_neo4j_exceptions f args).1 =
  (f args).1 ++ match (f args).2 with
                | inl e => [Logger_error ("Neo4j error: " +:+ exn_str e)]
                | inr _ => []
                end.
Proof. unfold handle_neo4j_exceptions. rewrite try_except_trace. by destruct (f args).2. Qed.

Lemma index_body_trace d :
  (_ ← emit (Session_run Index_query None);
   result ← lift (run_index d);
   bias_groups ← for_in result (fun g r => mret (index_step g r)) [];
   groups ← map_M bias_group bias_groups;
   mret (Template_index groups, 200%Z)).1 = [Session_run Index_query None].
Proof.
  repeat (rewrite bind_trace; cbn [emit lift fst snd]).
  destruct (run_index d) as [e|result]; [done|].
  rewrite bind_trace, for_in_trace by done. simpl.
  destruct (for_in result _ _).2; [done|].
  rewrite bind_trace, map_M_trace by apply bias_group_trace. simpl.
  by destruct (map_M bias_group _).2.
Qed.

(** X1.  Every request opens at most one session, runs exactly one query
    in a session it opened, and closes that session on every path -- an
    answer, a raised exception -- before the error of a failed request is
    logged. *)
Theorem requests_hold_one_session d article_id :
  one_session Graph_query (Some article_id) (api_graph d article_id).1 ∧
  one_session Content_query (Some article_id) (api_article d article_id).1 ∧
  one_session Index_query None (index d).1.
Proof.
  split_and!.
  - unfold api_graph. rewrite handle_neo4j_trace, get_article_graph_trace,
      get_article_graph_result.
    destruct (invalid_article_id article_id); [by left|].
    destruct (session_fails d); [right; left; by eexists|].
    right; right. simpl.
    destruct (run_graph d article_id) as [e|result].
    + exists [], [Logger_error ("Neo4j error: " +:+ exn_str e)].
      split_and!; [done|by left|right; by eexists].
    + eexists [_], _. split; [by rewrite <-app_assoc|]. split; [right; by eexists|].
      destruct (for_each graph_step result.1 graph_init).2;
        [right; by eexists|]. destruct result.2; [right; by eexists|].
      destruct (serializable _); [by left|right; by eexists].
  - unfold api_article. rewrite handle_neo4j_trace, get_article_content_trace,
      get_article_content_result.
    destruct (invalid_article_id article_id); [by left|].
    destruct (session_fails d); [right; left; by eexists|].
    right; right.
    destruct (run_content d article_id) as [e|[rows [e|]]]; simpl.
    + eexists [], _. split_and!; [done|by left|right; by eexists].
    + destruct rows; eexists [], _; (split_and!; [done|by left|right; by eexists]).
    + destruct rows; [|destruct (serializable _)]; eexists [], _;
        (split_and!; [done|by left|]); [by left|by left|right; by eexists].
  - unfold index. rewrite try_except_trace, with_session_trace, with_session_result.
    destruct (session_fails d); [right; left; by eexists|].
    right; right. rewrite index_body_trace.
    eexists [], _. split; [done|]. split; [by left|].
    match goal with |- context [match ?x with inl _ => _ | inr _ => _ end] =>
      destruct x end; [right; by eexists|by left].
Qed.

Lemma valid_id_not_invalid article_id :
  valid_id article_id → invalid_article_id article_id = false.
Proof.
  intros (s & -> & Hs). unfold invalid_article_id; simpl.
  by destruct (String.eqb_spec s "").
Qed.

Lemma graph_step_raises st record :
  (∃ e, (graph_step st record).2 = inl e) ↔ row_raises record = true.
Proof.
  destruct record as [[rel|] [c|] [r2|] [c2|]];
    unfold graph_step, row_raises, truthy_node, truthy_rel, is_none; unfold_M; simpl;
    try destruct (bool_Relationship r2); try destruct (bool_Node c);
    try destruct (bool_Node c2); try destruct (String.eqb (rel_type rel) "");
    simpl; repeat (case_match; simpl in *; simplify_eq);
    split; try done; try (by intros [? ?]); try (intros _; by eexists).
Qed.

Lemma for_each_graph_raises records : ∀ st,
  (∃ e, (for_each graph_step records st).2 = inl e) ↔
  existsb row_raises records = true.
Proof.
  induction records as [|r rest IH]; intros st.
  - split; [by intros [? ?]|done].
  - rewrite for_each_result_cons. cbn [existsb].
    rewrite orb_true_iff, <-(graph_step_raises st r).
    destruct (graph_step st r).2 as [e|st1] eqn:Hstep.
    + split; [intros _; left; by eexists|intros _; by eexists].
    + rewrite IH. split; [by right|]. by intros [[? ?]|?].
Qed.

(** X4.  On a result of the graph query that is fetched without store
    error the route answers 500 in two cases, and 200 with the graph in
    every other.  The first case is a row on which the loop raises: a row
    without first-hop relationship, or with a second-hop relationship that
    passes the truth test while [connected] or [other_connected] is
    [None].  The second is a graph that [jsonify] cannot serialise: one
    that holds a date as a label or as a property value. *)
Theorem graph_route_fails_on_raising_row d article_id rows :
  valid_id article_id →
  session_fails d = None →
  run_graph d article_id = inr (rows, None) →
  (api_graph d article_id).2 =
    let ns := nodes (visit_rows rows graph_init) in
    let es := flat_map row_edges rows in
    if existsb row_raises rows || negb (serializable (Json_graph ns es))
    then inr (Json_error "Database error occurred", 500%Z)
    else inr (Json_graph ns es, 200%Z).
Proof.
  intros Hvalid%valid_id_not_invalid Hsess Hrun. unfold api_graph.
  rewrite handle_result, get_article_graph_result, Hvalid, Hsess, Hrun. simpl.
  destruct (for_each graph_step rows graph_init).2 as [e|st] eqn:Hloop.
  - assert (existsb row_raises rows = true) as ->; [|done].
    apply (for_each_graph_raises rows graph_init). by exists e.
  - assert (existsb row_raises rows = false) as ->.
    { destruct (existsb row_raises rows) eqn:Hr; [|done].
      apply (for_each_graph_raises rows graph_init) in Hr as [e He]. congruence. }
    apply for_each_graph_result in Hloop as (-> & -> & _). simpl.
    by destruct (serializable _).
Qed.

(** X2.  No exception escapes a route.  The graph route answers 400, 500 or
    200 with a graph and never 404; the content route answers 400, 404,
    500 or 200 with an article; the index answers with its groups or with
    the error page and status 500. *)
Theorem routes_answer_in_their_codes d article_id :
  (∃ t r, api_graph d article_id = (t, inr r) ∧
     (r = (Json_error "Invalid article ID", 400%Z) ∨
      r = (Json_error "Database error occurred", 500%Z) ∨
      ∃ ns es, r = (Json_graph ns es, 200%Z))) ∧
  (∃ t r, api_article d article_id = (t, inr r) ∧
     (r = (Json_error "Invalid article ID", 400%Z) ∨
      r = (Json_error "Article not found", 404%Z) ∨
      r = (Json_error "Database error occurred", 500%Z) ∨
      ∃ a, r = (Json_article a, 200%Z))) ∧
  (∃ t r, index d = (t, inr r) ∧
     (r = (Template_error "Error loading articles", 500%Z) ∨
      ∃ groups, r = (Template_index groups, 200%Z))).
Proof.
  split_and!.
  - pose proof (handle_result (get_article_graph d) article_id) as H.
    rewrite get_article_graph_result in H. fold (api_graph d article_id) in H.
    destruct (api_graph d article_id) as [t r]. simpl in H. subst r.
    destruct (invalid_article_id article_id); [answer ltac:(by left)|].
    destruct (session_fails d); [answer ltac:(right; by left)|].
    destruct (run_graph d article_id) as [e|result]; [answer ltac:(right; by left)|].
    destruct (for_each graph_step result.1 graph_init).2;
      [answer ltac:(right; by left)|].
    destruct result.2; [answer ltac:(right; by left)|].
    destruct (serializable _);
      [answer ltac:(right; right; by eexists _, _)|answer ltac:(right; by left)].
  - pose proof (handle_result (get_article_content d) article_id) as H.
    rewrite get_article_content_result in H. fold (api_article d article_id) in H.
    destruct (api_article d article_id) as [t r]. simpl in H. subst r.
    destruct (invalid_article_id article_id); [answer ltac:(by left)|].
    destruct (session_fails d); [answer ltac:(right; right; by left)|].
    destruct (run_content d article_id) as [e|[rows [e|]]];
      [answer ltac:(right; right; by left)
      |destruct rows; answer ltac:(right; right; by left)|].
    destruct rows; [answer ltac:(right; by left)|].
    destruct (serializable _);
      [answer ltac:(right; right; right; by eexists)
      |answer ltac:(right; right; by left)].
  - unfold index.
    match goal with |- context [try_except ?m ?h] =>
      pose proof (try_except_result m h) as H; destruct (try_except m h) as [t r];
      destruct m.2 as [e|[b z]] eqn:Hm end; simpl in H; subst r.
    + eexists _, _. split; [reflexivity|]. by left.
    + eexists _, _. split; [reflexivity|].
      rewrite with_session_result in Hm.
      destruct (session_fails d); [done|].
      repeat (rewrite bind_result in Hm; cbn [emit lift snd] in Hm).
      destruct (run_index d) as [e|result]; [done|].
      rewrite bind_result in Hm. destruct (for_in _ _ _).2; [done|].
      rewrite bind_result in Hm. destruct (map_M _ _).2; [done|].
      simpl in Hm. injection Hm as <- <-. right. by eexists.
Qed.

Lemma get_prop items name dflt :
  get items name dflt = default dflt (prop items name).
Proof.
  induction items as [|[k v] rest IH]; simpl; [done|].
  by destruct (String.eqb k name).
Qed.

Lemma visit_nodes_from shape o st n :
  n ∈ nodes (visit shape o st) →
  n ∈ nodes st ∨ ∃ c, o = Some c ∧ bool_Node c = true ∧ n = shape c.
Proof.
  destruct o as [c|]; simpl; [|by left].
  destruct (bool_Node c) eqn:Hb; simpl; [|by left].
  case_bool_decide; simpl; [by left|].
  intros [?| ->%list_elem_of_singleton]%elem_of_app; [by left|right]. by exists c.
Qed.

Lemma visit_rows_nodes_from records : ∀ st n,
  n ∈ nodes (visit_rows records st) →
  n ∈ nodes st ∨
  ∃ record c, record ∈ records ∧ truthy_row_node record c ∧
              (n = shape_connected c ∨ n = shape_connected2 c).
Proof.
  induction records as [|r rest IH]; intros st n; simpl; [by left|].
  intros [Hn|(record & c & ? & ? & ?)]%IH.
  - unfold visit_row in Hn.
    apply visit_nodes_from in Hn as [Hn|(c & ? & ? & ->)].
    + apply visit_nodes_from in Hn as [Hn|(c & ? & ? & ->)]; [by left|right].
      exists r, c. split_and!; [apply elem_of_cons; by left| |by left].
      split; [by left|done].
    + right. exists r, c. split_and!; [apply elem_of_cons; by left| |by right].
      split; [by right|done].
  - right. exists record, c. split_and!; [apply elem_of_cons; by right|done|done].
Qed.

(** X5.  Every emitted node is the shaping of a truthy node of some row:
    its group is the node's lower-cased first label (or [entity]), its
    properties are the node's, and its label is the [name], else the
    [title], else a string built from the identifier. *)
Theorem graph_nodes_are_shaped_row_nodes d article_id ns es code rows err :
  (api_graph d article_id).2 = inr (Json_graph ns es, code) →
  run_graph d article_id = inr (rows, err) →
  ∀ n, n ∈ ns →
    ∃ record c,
      record ∈ rows ∧ truthy_row_node record c ∧
      node_id n = element_id c ∧
      node_group n = lower (first_label c) ∧
      node_properties n = node_items c ∧
      match prop (node_items c) "name", prop (node_items c) "title" with
      | Some v, _ => node_label n = v
      | None, Some v => node_label n = v
      | None, None =>
          node_label n = PyStr (lower (first_label c) +:+ " " +:+ element_id c) ∨
          node_label n = PyStr (element_id c)
      end.
Proof.
  intros (rows' & Hrun' & _ & ->)%api_graph_shape Hrun.
  rewrite Hrun' in Hrun. injection Hrun as <- _. intros n Hn.
  apply visit_rows_nodes_from in Hn as [[]%elem_of_nil|(record & c & ? & ? & Hshape)].
  exists record, c. split_and!; try done; try (by destruct Hshape as [-> | ->]).
  destruct Hshape as [-> | ->]; simpl; rewrite !get_prop;
    destruct (prop (node_items c) "name"), (prop (node_items c) "title"); simpl;
    auto.
Qed.

(** X8.  An identifier whose graph query matches nothing -- an unknown
    article, or one without relationships -- gets the empty graph with
    status 200, not a 404. *)
Theorem graph_of_nothing_is_empty d article_id :
  valid_id article_id →
  session_fails d = None →
  run_graph d article_id = inr ([], None) →
  (api_graph d article_id).2 = inr (Json_graph [] [], 200%Z).
Proof.
  intros Hvalid%valid_id_not_invalid Hsess Hrun. unfold api_graph.
  by rewrite handle_result, get_article_graph_result, Hvalid, Hsess, Hrun.
Qed.

(** X9.  When the content query yields records, the content route answers
    from the first one, whatever follows it: with the article, status 200
    and nothing logged when its fields can be serialised; with 500, the
    [TypeError] of [jsonify] logged, when one of them is a date. *)
Theorem content_of_first_record d article_id article rest :
  valid_id article_id →
  session_fails d = None →
  run_content d article_id = inr (article :: rest, None) →
  api_article d article_id =
    if serializable (Json_article (article_json article))
    then ([Session_open; Session_run Content_query (Some article_id);
           Session_close],
          inr (Json_article (article_json article), 200%Z))
    else ([Session_open; Session_run Content_query (Some article_id);
           Session_close;
           Logger_error
             "Neo4j error: Object of type Date is not JSON serializable"],
          inr (Json_error "Database error occurred", 500%Z)).
Proof.
  intros Hvalid%valid_id_not_invalid Hsess Hrun.
  unfold api_article, handle_neo4j_exceptions, get_article_content, with_session.
  rewrite Hvalid, Hsess. unfold_M. rewrite Hrun. unfold jsonify.
  cbn -[serializable article_json]. by destruct (serializable _).
Qed.

Section dictionaries2.
Context {V : Type}.
Implicit Types (d : pydict V) (k : pyval) (v : V) (f : V → V).

Lemma dict_alter_keys f k0 d : map fst (dict_alter f k0 d) = map fst d.
Proof.
  induction d as [|[k1 v1] rest IH]; simpl; [done|].
  destruct (key_eqb k1 k0); simpl; [done|by rewrite IH].
Qed.

Lemma dict_set_keys k v d :
  map fst (dict_set k v d) =
  if dict_contains k d then map fst d else map fst d ++ [k].
Proof.
  unfold dict_set. destruct (dict_contains k d).
  - apply dict_alter_keys.
  - by rewrite map_app.
Qed.

Lemma dict_alter_from_hit f k0 d k v' :
  (k, v') ∈ dict_alter f k0 d →
  (k, v') ∈ d ∨ ∃ v, (k, v) ∈ d ∧ v' = f v ∧ key_eqb k k0 = true.
Proof.
  induction d as [|[k1 v1] rest IH]; simpl; [by intros ?%elem_of_nil|].
  destruct (key_eqb k1 k0) eqn:Hk.
  - intros [[= -> ->]|Hin]%elem_of_cons.
    + right. exists v1. split_and!; [apply elem_of_cons; by left|done|done].
    + left. apply elem_of_cons. by right.
  - intros [[= -> ->]|Hin]%elem_of_cons.
    + left. apply elem_of_cons. by left.
    + destruct (IH Hin) as [?|(v & ? & ? & ?)].
      * left. apply elem_of_cons. by right.
      * right. exists v. split_and!; [apply elem_of_cons; by right|done|done].
Qed.

Lemma dict_alter_keeps f k0 d k v :
  (k, v) ∈ d → key_eqb k k0 = false → (k, v) ∈ dict_alter f k0 d.
Proof.
  induction d as [|[k1 v1] rest IH]; simpl; [done|].
  intros [[= <- <-]|Hin]%elem_of_cons Hk.
  - rewrite Hk. apply elem_of_cons. by left.
  - destruct (key_eqb k1 k0); apply elem_of_cons; right; [done|by apply IH].
Qed.

Lemma dict_set_from_hit k v d k' v' :
  (k', v') ∈ dict_set k v d →
  (k', v') ∈ d ∨ (v' = v ∧ key_eqb k' k = true).
Proof.
  unfold dict_set. destruct (dict_contains k d).
  - intros [?|(v0 & ? & ? & ?)]%dict_alter_from_hit; [by left|by right].
  - intros [?|[= -> ->]%list_elem_of_singleton]%elem_of_app; [by left|right].
    split; [done|apply key_eqb_refl].
Qed.

Lemma dict_set_keeps k v d k' v' :
  (k', v') ∈ d → key_eqb k' k = false → (k', v') ∈ dict_set k v d.
Proof.
  intros Hin Hk. unfold dict_set. destruct (dict_contains k d).
  - by apply dict_alter_keeps.
  - apply elem_of_app. by left.
Qed.

Lemma keys_distinct_snoc ks k :
  keys_distinct ks → (∀ k', k' ∈ ks → key_eqb k' k = false) →
  keys_distinct (ks ++ [k]).
Proof.
  induction ks as [|k1 rest IH]; simpl; intros Hd Hk.
  - split; [|done]. by intros ? ?%elem_of_nil.
  - destruct Hd as [H1 Hd]. split.
    + intros k' [?| ->%list_elem_of_singleton]%elem_of_app; [by apply H1|].
      apply Hk, elem_of_cons. by left.
    + apply IH; [done|]. intros k' Hin. apply Hk, elem_of_cons. by right.
Qed.

Lemma dict_contains_false d k k' v :
  dict_contains k d = false → (k', v) ∈ d → key_eqb k' k = false.
Proof.
  intros Hc Hin. destruct (key_eqb k' k) eqn:Hk; [|done].
  by rewrite (dict_contains_intro d k k' v Hin Hk) in Hc.
Qed.

Lemma dict_set_distinct k v d :
  keys_distinct (map fst d) → keys_distinct (map fst (dict_set k v d)).
Proof.
  intros Hd. rewrite dict_set_keys. destruct (dict_contains k d) eqn:Hc; [done|].
  apply keys_distinct_snoc; [done|].
  intros k' ([k'' v'] & -> & Hin)%list_elem_of_fmap. simpl.
  by eapply dict_contains_false.
Qed.
End dictionaries2.

Lemma keys_distinct_NoDup ks : keys_distinct ks → NoDup ks.
Proof.
  induction ks as [|k rest IH]; simpl; [constructor|].
  intros [Hk Hd]. constructor; [|by apply IH].
  intros Hin. specialize (Hk k Hin). by rewrite key_eqb_refl in Hk.
Qed.

Lemma key_eqb_str_r k s : key_eqb k (PyStr s) = true → k = PyStr s.
Proof. destruct k; simpl; try done. by intros ->%String.eqb_eq. Qed.

Lemma index_step_entry bias_groups record k sources :
  (k, sources) ∈ index_step bias_groups record →
  (k, sources) ∈ bias_groups ∨ sources = [] ∨
  (∃ sources0,
     ((k, sources0) ∈ bias_groups ∨ sources0 = []) ∧
     key_eqb k (display_bias record) = true ∧
     sources = dict_set (display_source record) (record_articles record) sources0).
Proof.
  unfold index_step. fold (record_articles record).
  assert (∀ v, (k, v) ∈ (if negb (dict_contains (display_bias record) bias_groups)
                         then dict_set (display_bias record) [] bias_groups
                         else bias_groups) →
               (k, v) ∈ bias_groups ∨ v = []) as Hbg1.
  { intros v Hin.
    destruct (dict_contains (display_bias record) bias_groups) eqn:Hc;
      simpl in Hin; [by left|].
    unfold dict_set in Hin. rewrite Hc in Hin.
    apply elem_of_app in Hin as [?|[= -> ->]%list_elem_of_singleton];
      [by left|by right]. }
  intros [Hin|(sources0 & Hin & -> & Hk)]%dict_alter_from_hit.
  - destruct (Hbg1 _ Hin); [by left|right; by left].
  - right; right. exists sources0. split_and!; [by apply Hbg1|done|done].
Qed.

Lemma index_step_distinct bias_groups record :
  dict_distinct bias_groups → dict_distinct (index_step bias_groups record).
Proof.
  intros [Houter Hinner]. split.
  - unfold index_step. rewrite dict_alter_keys.
    destruct (dict_contains (display_bias record) bias_groups); simpl; [done|].
    by apply dict_set_distinct.
  - intros k sources [Hin|[->|(sources0 & Hin & _ & ->)]]%index_step_entry.
    + by eapply Hinner.
    + done.
    + apply dict_set_distinct. destruct Hin as [Hin| ->]; [by eapply Hinner|done].
Qed.

Lemma index_step_labelled bias_groups record :
  dict_labelled bias_groups → dict_labelled (index_step bias_groups record).
Proof.
  intros Hlab k sources k2 articles a
    [Hin|[->|(sources0 & Hin & Hk & ->)]]%index_step_entry Hin2 Ha.
  - by eapply Hlab.
  - by apply elem_of_nil in Hin2.
  - apply dict_set_from_hit in Hin2 as [Hin2|[-> Hk2]].
    + destruct Hin as [Hin| ->]; [by eapply Hlab|by apply elem_of_nil in Hin2].
    + unfold record_articles in Ha.
      apply list_elem_of_fmap in Ha as (article & -> & _). done.
Qed.

Lemma index_step_lists_own bias_groups record :
  group_lists (display_bias record) (display_source record)
              (record_articles record) (index_step bias_groups record).
Proof.
  unfold index_step. fold (record_articles record).
  set (b := display_bias record). set (s := display_source record).
  set (bg1 := if negb (dict_contains b bias_groups) then _ else _).
  assert (dict_contains b bg1 = true) as Hc.
  { subst bg1. destruct (dict_contains b bias_groups) eqn:Hc; simpl; [done|].
    destruct (dict_set_has b ([] : pydict (list IndexArticle)) bias_groups)
      as (k' & ? & ?).
    by eapply dict_contains_intro. }
  destruct (dict_alter_hit (dict_set s (record_articles record)) b bg1 Hc)
    as (k & sources & Hin & Hk).
  destruct (dict_set_has s (record_articles record) sources) as (k2 & Hin2 & Hk2).
  by exists k, (dict_set s (record_articles record) sources), k2.
Qed.

Lemma index_step_lists_other b s articles bias_groups record :
  isinstance_str b = true → isinstance_str s = true →
  ¬ (display_bias record = b ∧ display_source record = s) →
  group_lists b s articles bias_groups →
  group_lists b s articles (index_step bias_groups record).
Proof.
  intros Hb Hs Hother (k & sources & k2 & Hin & Hk & Hin2 & Hk2).
  destruct b as [| | |x|? ? ?]; try done. destruct s as [| | |y|? ? ?]; try done.
  apply key_eqb_str_r in Hk as ->. apply key_eqb_str_r in Hk2 as ->.
  unfold index_step. fold (record_articles record).
  set (bg1 := if negb (dict_contains _ bias_groups) then _ else _).
  assert ((PyStr x, sources) ∈ bg1) as Hin1.
  { subst bg1.
    destruct (dict_contains (display_bias record) bias_groups) eqn:Hc; simpl; [done|].
    unfold dict_set. rewrite Hc. apply elem_of_app. by left. }
  destruct (dict_alter_preserves
              (dict_set (display_source record) (record_articles record))
              (display_bias record) bg1 _ _ Hin1) as (v' & Hv' & [->| ->]).
  - exists (PyStr x), sources, (PyStr y). split_and!; try done; apply key_eqb_refl.
  - destruct (key_eqb (PyStr x) (display_bias record)) eqn:Hkb.
    + apply key_eqb_str in Hkb.
      destruct (key_eqb (PyStr y) (display_source record)) eqn:Hks.
      { apply key_eqb_str in Hks. by destruct Hother. }
      exists (PyStr x), (dict_set (display_source record) (record_articles record)
                          sources), (PyStr y).
      split_and!; [done|apply key_eqb_refl| |apply key_eqb_refl].
      by apply dict_set_keeps.
    + exists (PyStr x), sources, (PyStr y).
      split_and!; [|apply key_eqb_refl|done|apply key_eqb_refl].
      by apply dict_alter_keeps.
Qed.

Lemma foldl_index_step_distinct records : ∀ bias_groups,
  dict_distinct bias_groups → dict_distinct (foldl index_step bias_groups records).
Proof.
  induction records as [|r rest IH]; intros bg H; simpl; [done|].
  by apply IH, index_step_distinct.
Qed.

Lemma foldl_index_step_labelled records : ∀ bias_groups,
  dict_labelled bias_groups → dict_labelled (foldl index_step bias_groups records).
Proof.
  induction records as [|r rest IH]; intros bg H; simpl; [done|].
  by apply IH, index_step_labelled.
Qed.

Lemma foldl_index_step_lists b s articles records : ∀ bias_groups,
  isinstance_str b = true → isinstance_str s = true →
  (∀ record, record ∈ records →
     ¬ (display_bias record = b ∧ display_source record = s)) →
  group_lists b s articles bias_groups →
  group_lists b s articles (foldl index_step bias_groups records).
Proof.
  induction records as [|r rest IH]; intros bg Hb Hs Hother H; simpl; [done|].
  apply IH; [done|done| |].
  - intros record Hin. apply Hother, elem_of_cons. by right.
  - apply index_step_lists_other; [done|done| |done].
    apply Hother, elem_of_cons. by left.
Qed.

Lemma map_M_fails {A B} (f : A → M B) l x :
  x ∈ l → (∃ e, (f x).2 = inl e) → ∃ e, (map_M f l).2 = inl e.
Proof.
  induction l as [|y rest IH]; [by intros ?%elem_of_nil|].
  intros [->|Hin]%elem_of_cons Hx; simpl; rewrite bind_result.
  - destruct Hx as [e ->]. by exists e.
  - destruct (f y).2 as [e|b]; [by exists e|].
    rewrite bind_result. destruct (IH Hin Hx) as [e ->]. by exists e.
Qed.

Lemma source_group_fails entry :
  isinstance_str entry.1 = false → ∃ e, (source_group entry).2 = inl e.
Proof. destruct entry as [[| | |s|? ? ?] articles]; simpl; try done; by eexists. Qed.

Lemma bias_group_fails k sources :
  isinstance_str k = false ∨
  (∃ k2 articles, (k2, articles) ∈ sources ∧ isinstance_str k2 = false) →
  ∃ e, (bias_group (k, sources)).2 = inl e.
Proof.
  intros H. unfold bias_group. rewrite bind_result.
  destruct (map_M source_group sources).2 as [e|sl] eqn:Hsl; [by exists e|].
  rewrite bind_result.
  destruct H as [Hk|(k2 & articles & Hin & Hk2)].
  - destruct k; simpl in *; try done; by eexists.
  - destruct (map_M_fails source_group sources (k2, articles) Hin) as [e He];
      [by apply source_group_fails|congruence].
Qed.

Lemma key_eqb_not_str k b :
  key_eqb k b = true → isinstance_str b = false → isinstance_str k = false.
Proof. destruct k, b; simpl; done. Qed.

(** The groups rendered are the entries of the dictionaries, one for one. *)
Lemma index_groups_of_dict d groups code :
  (index d).2 = inr (Template_index groups, code) →
  ∃ rows, run_index d = inr (rows, None) ∧
    Forall2 (λ entry g,
               bg_name g = entry.1 ∧ isinstance_str entry.1 = true ∧
               Forall2 (λ e2 sg, sg_name sg = e2.1 ∧ isinstance_str e2.1 = true ∧
                                 sg_articles sg = e2.2)
                       entry.2 (bg_sources g))
            (foldl index_step [] rows) groups.
Proof.
  intros (rows & Hrun & Hg)%index_result. exists rows. split; [done|].
  apply map_M_result in Hg. eapply Forall2_impl; [exact Hg|].
  intros entry g (s & Hs & Hname & _ & Hsrc)%bias_group_result. simpl.
  rewrite Hs, Hname. split_and!; [done|done|].
  eapply Forall2_impl; [exact Hsrc|].
  intros e2 sg (t & Ht & Hn & _ & Ha)%source_group_result. simpl.
  by rewrite Ht, Hn, Ha.
Qed.

Lemma Forall2_fmap_eq {A B C} (f : A → C) (g : B → C) l l' :
  Forall2 (λ x y, g y = f x) l l' → map g l' = map f l.
Proof. induction 1; simpl; congruence. Qed.

(** X11.  On a healthy result the index renders its groups when every
    display name is a string; a single row whose bias or source is a
    truthy value of another type makes the whole page fail with the error
    page and status 500. *)
Theorem index_renders_on_string_names d rows :
  session_fails d = None →
  run_index d = inr (rows, None) →
  ((∀ record, record ∈ rows →
      isinstance_str (display_bias record) = true ∧
      isinstance_str (display_source record) = true) →
   ∃ groups, (index d).2 = inr (Template_index groups, 200%Z)) ∧
  (∀ record, record ∈ rows →
     isinstance_str (display_bias record) = false ∨
     isinstance_str (display_source record) = false →
     (index d).2 = inr (Template_error "Error loading articles", 500%Z)).
Proof.
  intros Hsess Hrun. split; [by apply index_renders|].
  intros record Hin Hbad.
  destruct (foldl_index_step_has rows [] record Hin)
    as (k & sources & k2 & articles & Hk & Hkb & Hk2 & Hk2s).
  destruct (map_M_fails bias_group (foldl index_step [] rows) (k, sources) Hk)
    as [e He].
  { apply bias_group_fails. destruct Hbad as [Hb|Hs].
    - left. by eapply key_eqb_not_str.
    - right. exists k2, articles. split; [done|]. by eapply key_eqb_not_str. }
  unfold index. rewrite try_except_result, with_session_result, Hsess.
  repeat (rewrite bind_result; cbn [emit lift snd]). rewrite Hrun.
  rewrite bind_result, for_in_result, for_each_pure. cbn [fst snd].
  by rewrite bind_result, He.
Qed.

(** X12.  A store failure while the index is served -- on opening the
    session, on running the query or while the records are fetched --
    gives the error page with the message [Error loading articles] and
    status 500. *)
Theorem index_store_error_is_error_page d e :
  store_error d (run_index d) e →
  (index d).2 = inr (Template_error "Error loading articles", 500%Z).
Proof.
  intros Herr. unfold index. rewrite try_except_result, with_session_result.
  destruct (session_fails d) as [e'|] eqn:Hsess; [done|].
  repeat (rewrite bind_result; cbn [emit lift snd]).
  destruct Herr as [?|[->|[rows ->]]]; [congruence|done|].
  rewrite bind_result, for_in_result, for_each_pure. done.
Qed.

(** X13.  No two bias groups of the index share a name, and no two source
    groups of a bias group do. *)
Theorem index_group_names_distinct d groups code :
  (index d).2 = inr (Template_index groups, code) →
  NoDup (map bg_name groups) ∧
  ∀ g, g ∈ groups → NoDup (map sg_name (bg_sources g)).
Proof.
  intros (rows & _ & Hg)%index_groups_of_dict.
  assert (dict_distinct (foldl index_step [] rows)) as [Houter Hinner].
  { apply foldl_index_step_distinct. split; [done|]. by intros ?? ?%elem_of_nil. }
  split.
  - rewrite (Forall2_fmap_eq fst bg_name (foldl index_step [] rows) groups).
    + by apply keys_distinct_NoDup.
    + eapply Forall2_impl; [exact Hg|]. by intros ?? [? _].
  - intros g Hin. apply list_elem_of_lookup in Hin as [i Hi].
    destruct (Forall2_lookup_r _ _ _ _ _ Hg Hi) as ([k sources] & Hk & _ & _ & Hsrc).
    simpl in Hsrc.
    rewrite (Forall2_fmap_eq fst sg_name sources (bg_sources g)).
    + apply keys_distinct_NoDup, (Hinner k). by eapply list_elem_of_lookup_2.
    + eapply Forall2_impl; [exact Hsrc|]. by intros ?? [? _].
Qed.

(** X14.  Every article of the index is listed with the [bias] and the
    [source] of the groups it is under. *)
Theorem index_articles_carry_group_labels d groups code :
  (index d).2 = inr (Template_index groups, code) →
  ∀ g sg a, g ∈ groups → sg ∈ bg_sources g → a ∈ sg_articles sg →
    ia_bias a = bg_name g ∧ ia_source a = sg_name sg.
Proof.
  intros (rows & _ & Hg)%index_groups_of_dict g sg a Hin Hsg Ha.
  assert (dict_labelled (foldl index_step [] rows)) as Hlab.
  { apply foldl_index_step_labelled. by intros ????? ?%elem_of_nil. }
  apply list_elem_of_lookup in Hin as [i Hi].
  destruct (Forall2_lookup_r _ _ _ _ _ Hg Hi)
    as ([k sources] & Hk & Hname & Hstr & Hsrc). simpl in *.
  apply list_elem_of_lookup in Hsg as [j Hj].
  destruct (Forall2_lookup_r _ _ _ _ _ Hsrc Hj)
    as ([k2 articles] & Hk2 & Hname2 & Hstr2 & Harts). simpl in *.
  rewrite Harts in Ha.
  destruct (Hlab k sources k2 articles a) as [Hb Hs];
    [by eapply list_elem_of_lookup_2|by eapply list_elem_of_lookup_2|done|].
  destruct k as [| | |x|? ? ?]; try done. destruct k2 as [| | |y|? ? ?]; try done.
  apply key_eqb_str in Hb, Hs. by rewrite Hname, Hname2, Hb, Hs.
Qed.

(** X15.  When several rows of the index query have the same display bias
    and source, the source group lists the articles of the last of them
    only: the assignment of line 104 replaces what an earlier row put
    there. *)
Theorem index_last_row_wins d groups code before record after :
  (index d).2 = inr (Template_index groups, code) →
  run_index d = inr (before ++ record :: after, None) →
  (∀ later, later ∈ after → ¬ same_group later record) →
  ∃ g sg, g ∈ groups ∧ sg ∈ bg_sources g ∧
          bg_name g = display_bias record ∧
          sg_name sg = display_source record ∧
          sg_articles sg = record_articles record.
Proof.
  intros Hidx Hrun Hlast.
  destruct (index_groups_of_dict _ _ _ Hidx) as (rows & Hrun' & Hg).
  rewrite Hrun in Hrun'. injection Hrun' as <-.
  (* the display names of [record] are strings, since the page rendered *)
  assert (isinstance_str (display_bias record) = true ∧
          isinstance_str (display_source record) = true) as [Hb Hs].
  { destruct (foldl_index_step_has (before ++ record :: after) [] record)
      as (k & sources & k2 & articles & Hk & Hkb & Hk2 & Hk2s).
    { apply elem_of_app. right. apply elem_of_cons. by left. }
    apply list_elem_of_lookup in Hk as [i Hi].
    destruct (Forall2_lookup_l _ _ _ _ _ Hg Hi) as (g & _ & _ & Hstr & Hsrc).
    simpl in *. apply list_elem_of_lookup in Hk2 as [j Hj].
    destruct (Forall2_lookup_l _ _ _ _ _ Hsrc Hj) as (sg & _ & _ & Hstr2 & _).
    simpl in *. destruct k as [| | |x|? ? ?]; try done. destruct k2 as [| | |y|? ? ?]; try done.
    apply key_eqb_str in Hkb, Hk2s. by rewrite Hkb, Hk2s. }
  assert (group_lists (display_bias record) (display_source record)
            (record_articles record)
            (foldl index_step [] (before ++ record :: after)))
    as (k & sources & k2 & Hk & Hkb & Hk2 & Hk2s).
  { rewrite foldl_app. simpl. apply foldl_index_step_lists; [done|done| |].
    - intros later Hin ?. by apply (Hlast later).
    - apply index_step_lists_own. }
  destruct (display_bias record) as [| | |x|? ? ?]; try done.
  destruct (display_source record) as [| | |y|? ? ?]; try done.
  apply key_eqb_str_r in Hkb, Hk2s. subst k k2.
  apply list_elem_of_lookup in Hk as [i Hi].
  destruct (Forall2_lookup_l _ _ _ _ _ Hg Hi) as (g & Hgi & Hname & _ & Hsrc).
  simpl in *. apply list_elem_of_lookup in Hk2 as [j Hj].
  destruct (Forall2_lookup_l _ _ _ _ _ Hsrc Hj) as (sg & Hsgj & Hname2 & _ & Ha).
  simpl in *. exists g, sg.
  split_and!; [by eapply list_elem_of_lookup_2|by eapply list_elem_of_lookup_2|
               done|done|done].
Qed.

Lemma replace_no_space s : occurs " " (replace " " "-" s) = false.
Proof.
  induction s as [|c s IH]; simpl; [done|].
  destruct (Ascii.eqb c " ") eqn:Hc; simpl; [done|]. by rewrite Hc.
Qed.

(** X16.  The [id] of every bias group and of every source group of the
    index holds no space, whatever [lower] made of the name. *)
Theorem index_ids_hold_no_space d groups code :
  (index d).2 = inr (Template_index groups, code) →
  ∀ g, g ∈ groups →
    occurs " " (bg_id g) = false ∧
    ∀ sg, sg ∈ bg_sources g → occurs " " (sg_id sg) = false.
Proof.
  intros (rows & _ & Hg)%index_result g Hin.
  apply map_M_result in Hg. apply list_elem_of_lookup in Hin as [i Hi].
  destruct (Forall2_lookup_r _ _ _ _ _ Hg Hi) as (entry & _ & Hres).
  apply bias_group_result in Hres as (s & _ & _ & -> & Hsrc).
  split; [apply replace_no_space|].
  intros sg Hsg. apply list_elem_of_lookup in Hsg as [j Hj].
  destruct (Forall2_lookup_r _ _ _ _ _ Hsrc Hj) as (e2 & _ & Hres).
  apply source_group_result in Hres as (t & _ & _ & -> & _).
  apply replace_no_space.
Qed.

(** X3.  With a session at hand, a route runs its query exactly for the
    identifiers that are non-empty strings, and passes the identifier on
    as it came. *)
Theorem query_runs_for_valid_ids d article_id :
  session_fails d = None →
  (Session_run Graph_query (Some article_id) ∈ (api_graph d article_id).1 ↔
   valid_id article_id) ∧
  (Session_run Content_query (Some article_id) ∈ (api_article d article_id).1 ↔
   valid_id article_id).
Proof.
  intros Hsess.
  assert (invalid_article_id article_id = false ↔ valid_id article_id) as Hv.
  { split; [|apply valid_id_not_invalid].
    destruct article_id as [| | |s|? ? ?]; unfold invalid_article_id; simpl;
      rewrite ?orb_true_r; try done.
    destruct (String.eqb_spec s ""); [done|]. intros _. by exists s. }
  split.
  - unfold api_graph. rewrite handle_neo4j_trace, get_article_graph_trace, Hsess.
    rewrite <-Hv, elem_of_app. destruct (invalid_article_id article_id); simpl.
    + split; [|done]. intros [?%elem_of_nil|H]; [done|].
      destruct (get_article_graph d article_id).2;
        [by apply list_elem_of_singleton in H|by apply elem_of_nil in H].
    + split; [done|]. intros _. left.
      apply elem_of_cons; right. apply elem_of_cons; by left.
  - unfold api_article. rewrite handle_neo4j_trace, get_article_content_trace, Hsess.
    rewrite <-Hv, elem_of_app. destruct (invalid_article_id article_id); simpl.
    + split; [|done]. intros [?%elem_of_nil|H]; [done|].
      destruct (get_article_content d article_id).2;
        [by apply list_elem_of_singleton in H|by apply elem_of_nil in H].
    + split; [done|]. intros _. left.
      apply elem_of_cons; right. apply elem_of_cons; by left.
Qed.

Lemma filter_image_nil {A} (f : A → string) (l : list A) x :
  x ∉ map f l → filter (λ y, f y = x) l = [].
Proof.
  induction l as [|y rest IH]; simpl; [done|].
  intros Hx. rewrite filter_cons. destruct (decide (f y = x)) as [Heq|_].
  - destruct Hx. apply elem_of_cons. by left.
  - apply IH. intros Hin. apply Hx, elem_of_cons. by right.
Qed.

Lemma filter_image_one {A} (f : A → string) (l : list A) x :
  NoDup (map f l) → x ∈ map f l → length (filter (λ y, f y = x) l) = 1.
Proof.
  induction l as [|y rest IH]; simpl; [by intros _ ?%elem_of_nil|].
  intros [Hy Hnd]%NoDup_cons Hx. rewrite filter_cons.
  destruct (decide (f y = x)) as [Heq|Hne]; simpl.
  - rewrite filter_image_nil; [done|]. by rewrite <-Heq.
  - apply IH; [done|]. apply elem_of_cons in Hx as [?|?]; [congruence|done].
Qed.

(** X6.  Every truthy node of every row, first hop or second, is emitted,
    and exactly once. *)
Theorem truthy_row_nodes_emitted_once d article_id ns es code rows err :
  (api_graph d article_id).2 = inr (Json_graph ns es, code) →
  run_graph d article_id = inr (rows, err) →
  ∀ record c, record ∈ rows → truthy_row_node record c →
    length (filter (λ n, node_id n = element_id c) ns) = 1.
Proof.
  intros Hresp Hrun record c Hin Hc. apply filter_image_one.
  - destruct (api_graph_shape _ _ _ _ _ Hresp) as (rows' & _ & _ & ->).
    apply (visit_rows_inv rows' graph_init graph_init_inv).
  - apply (graph_nodes_from_rows _ _ _ _ _ _ _ Hresp Hrun). by exists record, c.
Qed.

(** X7.  An edge endpoint that no emitted node has as [id] is the
    identifier of a row node that carries no property; every other
    endpoint is the [id] of an emitted node. *)
Theorem dangling_endpoints_are_bare_nodes d article_id ns es code rows err :
  (api_graph d article_id).2 = inr (Json_graph ns es, code) →
  run_graph d article_id = inr (rows, err) →
  ∀ e x, e ∈ es → x = edge_from e ∨ x = edge_to e →
    x ∈ map node_id ns ∨
    ∃ record c, record ∈ rows ∧
      (rec_connected record = Some c ∨ rec_other_connected record = Some c) ∧
      node_items c = [] ∧ x = element_id c.
Proof.
  intros Hresp Hrun e x He Hx.
  pose proof (graph_nodes_from_rows _ _ _ _ _ _ _ Hresp Hrun) as Hids.
  destruct (api_graph_shape _ _ _ _ _ Hresp) as (rows' & Hrun' & -> & _).
  rewrite Hrun' in Hrun. injection Hrun as <- _.
  apply elem_of_flat_map_row_edges in He as (record & Hin & He).
  assert (∀ c, rec_connected record = Some c ∨ rec_other_connected record = Some c →
               element_id c ∈ map node_id ns ∨
               ∃ record c', record ∈ rows' ∧
                 (rec_connected record = Some c' ∨ rec_other_connected record = Some c') ∧
                 node_items c' = [] ∧ element_id c = element_id c') as Hnode.
  { intros c Hc. destruct (bool_Node c) eqn:Hb.
    - left. apply Hids. by exists record, c.
    - right. exists record, c. split_and!; [done|done| |done].
      unfold bool_Node, bool_items in Hb. by destruct (node_items c). }
  destruct He as [He|He].
  - apply first_hop_edge_inv in He as (rel & c & ? & ? & _ & _ & ->).
    simpl in Hx. assert (x = element_id c) as -> by (by destruct Hx).
    apply Hnode. by left.
  - apply second_hop_edge_inv in He as (r2 & c & c2 & ? & ? & ? & _ & ->).
    simpl in Hx. destruct Hx as [-> | ->]; apply Hnode; [by left|by right].
Qed.

End further.

(** ** Instances of the further properties *)

(** X3 on [newsroom_store]. *)
Lemma query_runs_for_valid_ids_witness :
  session_fails (store_driver newsroom_store [] vest_content) = None ∧
  Session_run Graph_query (Some (PyStr "4:db:0"))
    ∈ (api_graph (store_driver newsroom_store [] vest_content) (PyStr "4:db:0")).1.
Proof.
  split; [reflexivity|].
  destruct (query_runs_for_valid_ids (store_driver newsroom_store [] vest_content)
              (PyStr "4:db:0")) as [Hg _]; [reflexivity|].
  apply Hg. exists "4:db:0". split; [reflexivity|discriminate].
Defined.

(** X4 on a row that has [r2] but no [other_connected], and on
    [dated_store], whose graph holds a date. *)
Lemma graph_route_fails_on_raising_row_witness :
  (valid_id (PyStr "4:db:0") ∧
   session_fails half_row_driver = None ∧
   run_graph half_row_driver (PyStr "4:db:0")
     = inr ([mkGraphRecord (Some pominje) (Some ana) (Some radi_u) None], None)) ∧
  (api_graph half_row_driver (PyStr "4:db:0")).2
    = inr (Json_error "Database error occurred", 500%Z) ∧
  (api_graph (store_driver dated_store [] vest_content) (PyStr "4:db:0")).2
    = inr (Json_error "Database error occurred", 500%Z).
Proof.
  assert (valid_id (PyStr "4:db:0")) as Hvalid.
  { exists "4:db:0". split; [reflexivity|discriminate]. }
  split; [split_and!; [exact Hvalid|reflexivity|reflexivity]|]. split.
  - rewrite (graph_route_fails_on_raising_row half_row_driver (PyStr "4:db:0")
               [mkGraphRecord (Some pominje) (Some ana) (Some radi_u) None]
               Hvalid eq_refl eq_refl).
    reflexivity.
  - rewrite (graph_route_fails_on_raising_row
               (store_driver dated_store [] vest_content) (PyStr "4:db:0")
               (graph_rows dated_store (PyStr "4:db:0")) Hvalid eq_refl eq_refl).
    vm_compute; reflexivity.
Defined.

(** X5 on [newsroom_store]. *)
Lemma graph_nodes_are_shaped_row_nodes_witness :
  (api_graph (store_driver newsroom_store [] vest_content) (PyStr "4:db:0")).2
    = inr (Json_graph newsroom_nodes newsroom_edges, 200%Z) ∧
  run_graph (store_driver newsroom_store [] vest_content) (PyStr "4:db:0")
    = inr (graph_rows newsroom_store (PyStr "4:db:0"), None) ∧
  ∀ n, n ∈ newsroom_nodes →
    ∃ record c,
      record ∈ graph_rows newsroom_store (PyStr "4:db:0") ∧
      truthy_row_node record c ∧
      node_id n = element_id c ∧
      node_group n = lower (first_label c) ∧
      node_properties n = node_items c ∧
      match prop (node_items c) "name", prop (node_items c) "title" with
      | Some v, _ => node_label n = v
      | None, Some v => node_label n = v
      | None, None =>
          node_label n = PyStr (lower (first_label c) +:+ " " +:+ element_id c) ∨
          node_label n = PyStr (element_id c)
      end.
Proof.
  split; [vm_compute; reflexivity|]. split; [reflexivity|].
  apply (graph_nodes_are_shaped_row_nodes (store_driver newsroom_store [] vest_content)
           (PyStr "4:db:0") newsroom_nodes newsroom_edges 200%Z
           (graph_rows newsroom_store (PyStr "4:db:0")) None);
    [vm_compute; reflexivity|reflexivity].
Defined.

(** X6 on [newsroom_store]: Ana is the connected node of two rows. *)
Lemma truthy_row_nodes_emitted_once_witness :
  (api_graph (store_driver newsroom_store [] vest_content) (PyStr "4:db:0")).2
    = inr (Json_graph newsroom_nodes newsroom_edges, 200%Z) ∧
  run_graph (store_driver newsroom_store [] vest_content) (PyStr "4:db:0")
    = inr (graph_rows newsroom_store (PyStr "4:db:0"), None) ∧
  length (filter (λ n, node_id n = element_id ana) newsroom_nodes) = 1.
Proof.
  split; [vm_compute; reflexivity|]. split; [reflexivity|].
  apply (truthy_row_nodes_emitted_once
           (store_driver newsroom_store [] vest_content) (PyStr "4:db:0")
           newsroom_nodes newsroom_edges 200%Z
           (graph_rows newsroom_store (PyStr "4:db:0")) None)
    with (record := mkGraphRecord (Some pominje) (Some ana) (Some zivi_u) (Some grad)).
  - vm_compute; reflexivity.
  - reflexivity.
  - vm_compute. apply elem_of_cons; right. apply elem_of_cons; left. reflexivity.
  - split; [left; reflexivity|reflexivity].
Defined.

(** X7 on [bare_node_store], where the place carries no property. *)
Lemma dangling_endpoints_are_bare_nodes_witness :
  (api_graph (store_driver bare_node_store [] vest_content) (PyStr "4:db:0")).2
    = inr (Json_graph [shape_connected2 ana] [hop_edge nalazi_se mesto ana],
           200%Z) ∧
  run_graph (store_driver bare_node_store [] vest_content) (PyStr "4:db:0")
    = inr (graph_rows bare_node_store (PyStr "4:db:0"), None) ∧
  ("4:db:2" ∈ map node_id [shape_connected2 ana] ∨
   ∃ record c, record ∈ graph_rows bare_node_store (PyStr "4:db:0") ∧
     (rec_connected record = Some c ∨ rec_other_connected record = Some c) ∧
     node_items c = [] ∧ "4:db:2" = element_id c).
Proof.
  split; [vm_compute; reflexivity|]. split; [reflexivity|].
  apply (dangling_endpoints_are_bare_nodes
           (store_driver bare_node_store [] vest_content) (PyStr "4:db:0")
           [shape_connected2 ana] [hop_edge nalazi_se mesto ana] 200%Z
           (graph_rows bare_node_store (PyStr "4:db:0")) None)
    with (e := hop_edge nalazi_se mesto ana).
  - vm_compute; reflexivity.
  - reflexivity.
  - apply elem_of_cons; left; reflexivity.
  - left; reflexivity.
Defined.

(** X8 on [newsroom_store]: no node has the identifier ["4:db:9"]. *)
Lemma graph_of_nothing_is_empty_witness :
  valid_id (PyStr "4:db:9") ∧
  session_fails (store_driver newsroom_store [] vest_content) = None ∧
  run_graph (store_driver newsroom_store [] vest_content) (PyStr "4:db:9") = inr ([], None) ∧
  (api_graph (store_driver newsroom_store [] vest_content) (PyStr "4:db:9")).2
    = inr (Json_graph [] [], 200%Z).
Proof.
  assert (valid_id (PyStr "4:db:9")) as Hvalid.
  { exists "4:db:9". split; [reflexivity|discriminate]. }
  split_and!; [exact Hvalid|reflexivity|vm_compute; reflexivity|].
  apply (graph_of_nothing_is_empty (store_driver newsroom_store [] vest_content) (PyStr "4:db:9"));
    [exact Hvalid|reflexivity|vm_compute; reflexivity].
Defined.

(** X9 on the article [vest], and on [dated_vest], whose [date] is a
    date. *)
Lemma content_of_first_record_witness :
  (valid_id (PyStr "4:db:0") ∧
   session_fails (store_driver newsroom_store [] vest_content) = None ∧
   run_content (store_driver newsroom_store [] vest_content) (PyStr "4:db:0")
     = inr ([vest], None)) ∧
  api_article (store_driver newsroom_store [] vest_content) (PyStr "4:db:0") =
    ([Session_open; Session_run Content_query (Some (PyStr "4:db:0"));
      Session_close],
     inr (Json_article (article_json vest), 200%Z)) ∧
  api_article (store_driver newsroom_store [] dated_content) (PyStr "4:db:6") =
    ([Session_open; Session_run Content_query (Some (PyStr "4:db:6"));
      Session_close;
      Logger_error "Neo4j error: Object of type Date is not JSON serializable"],
     inr (Json_error "Database error occurred", 500%Z)).
Proof.
  assert (∀ s, s ≠ "" → valid_id (PyStr s)) as Hvalid.
  { intros s Hs. exists s. split; [reflexivity|exact Hs]. }
  split; [split_and!; [apply Hvalid; discriminate|reflexivity|reflexivity]|].
  split.
  - rewrite (content_of_first_record
               (store_driver newsroom_store [] vest_content) (PyStr "4:db:0")
               vest [] (Hvalid "4:db:0" ltac:(discriminate)) eq_refl eq_refl).
    reflexivity.
  - rewrite (content_of_first_record
               (store_driver newsroom_store [] dated_content) (PyStr "4:db:6")
               dated_vest [] (Hvalid "4:db:6" ltac:(discriminate)) eq_refl eq_refl).
    reflexivity.
Defined.

(** X11 on [index_rows_merging], which renders, and on
    [index_rows_numeric], which does not. *)
Lemma index_renders_on_string_names_witness :
  (session_fails (store_driver newsroom_store index_rows_merging vest_content) = None ∧
   run_index (store_driver newsroom_store index_rows_merging vest_content)
     = inr (index_rows_merging, None) ∧
   ∃ groups, (index (store_driver newsroom_store index_rows_merging vest_content)).2
               = inr (Template_index groups, 200%Z)) ∧
  (session_fails (store_driver newsroom_store index_rows_numeric vest_content) = None ∧
   run_index (store_driver newsroom_store index_rows_numeric vest_content)
     = inr (index_rows_numeric, None) ∧
   (index (store_driver newsroom_store index_rows_numeric vest_content)).2
     = inr (Template_error "Error loading articles", 500%Z)).
Proof.
  split; (split; [reflexivity|]); (split; [reflexivity|]).
  - destruct (index_renders_on_string_names
                (store_driver newsroom_store index_rows_merging vest_content)
                index_rows_merging eq_refl eq_refl) as [Hok _].
    apply Hok. intros record Hin.
    repeat (apply elem_of_cons in Hin as [->|Hin]; [split; reflexivity|]).
    by apply elem_of_nil in Hin.
  - destruct (index_renders_on_string_names
                (store_driver newsroom_store index_rows_numeric vest_content)
                index_rows_numeric eq_refl eq_refl) as [_ Hbad].
    apply (Hbad (mkIndexRecord (PyInt 3) (PyStr "Danas") [vest]));
      [apply elem_of_cons; left; reflexivity|left; reflexivity].
Defined.

(** X12 on a driver that cannot connect. *)
Lemma index_store_error_is_error_page_witness :
  store_error down_driver (run_index down_driver)
    (Neo4jError "Couldn't connect to localhost:7687") ∧
  (index down_driver).2 = inr (Template_error "Error loading articles", 500%Z).
Proof.
  split; [left; reflexivity|].
  apply (index_store_error_is_error_page down_driver
           (Neo4jError "Couldn't connect to localhost:7687")).
  left; reflexivity.
Defined.

(** X13 on [index_rows_merging]. *)
Lemma index_group_names_distinct_witness :
  (index (store_driver newsroom_store index_rows_merging vest_content)).2
    = inr (Template_index index_groups_merging, 200%Z) ∧
  NoDup (map bg_name index_groups_merging).
Proof.
  split; [vm_compute; reflexivity|].
  destruct (index_group_names_distinct
              (store_driver newsroom_store index_rows_merging vest_content)
              index_groups_merging 200%Z) as [Hnames _];
    [vm_compute; reflexivity|exact Hnames].
Defined.

(** X14 on [index_rows_merging]. *)
Lemma index_articles_carry_group_labels_witness :
  (index (store_driver newsroom_store index_rows_merging vest_content)).2
    = inr (Template_index index_groups_merging, 200%Z) ∧
  ∀ g sg a, g ∈ index_groups_merging → sg ∈ bg_sources g → a ∈ sg_articles sg →
    ia_bias a = bg_name g ∧ ia_source a = sg_name sg.
Proof.
  split; [vm_compute; reflexivity|].
  apply (index_articles_carry_group_labels
           (store_driver newsroom_store index_rows_merging vest_content)
           index_groups_merging 200%Z).
  vm_compute; reflexivity.
Defined.

(** X15 on [index_rows_merging]: the row with the empty bias and the row
    with the missing bias share a group, which lists the article of the
    latter only. *)
Lemma index_last_row_wins_witness :
  (index (store_driver newsroom_store index_rows_merging vest_content)).2
    = inr (Template_index index_groups_merging, 200%Z) ∧
  (∃ g sg, g ∈ index_groups_merging ∧ sg ∈ bg_sources g ∧
           bg_name g = PyStr "Nepoznat bias" ∧ sg_name sg = PyStr "Danas" ∧
           map ia_id (sg_articles sg) = ["4:db:7"]).
Proof.
  split; [vm_compute; reflexivity|].
  destruct (index_last_row_wins
              (store_driver newsroom_store index_rows_merging vest_content)
              index_groups_merging 200%Z
              [mkIndexRecord (PyStr "") (PyStr "Danas")
                 [mkNode "4:db:8" ["Article"] [("title", PyStr "Prva")]];
               mkIndexRecord (PyStr "Levo") (PyStr "Danas") [vest]]
              (mkIndexRecord PyNone (PyStr "Danas")
                 [mkNode "4:db:7" ["Article"] [("title", PyStr "Druga")]])
              [])
    as (g & sg & Hg & Hsg & Hname & Hname2 & Harts).
  - vm_compute; reflexivity.
  - reflexivity.
  - intros later Hin. by apply elem_of_nil in Hin.
  - exists g, sg. split_and!; [exact Hg|exact Hsg|exact Hname|exact Hname2|].
    rewrite Harts. reflexivity.
Defined.

(** X16 on [index_rows_example]. *)
Lemma index_ids_hold_no_space_witness :
  (index (store_driver newsroom_store index_rows_example vest_content)).2
    = inr (Template_index index_groups_example, 200%Z) ∧
  ∀ g, g ∈ index_groups_example →
    occurs " " (bg_id g) = false ∧
    ∀ sg, sg ∈ bg_sources g → occurs " " (sg_id sg) = false.
Proof.
  split; [vm_compute; reflexivity|].
  apply (index_ids_hold_no_space
           (store_driver newsroom_store index_rows_example vest_content)
           index_groups_example 200%Z).
  vm_compute; reflexivity.
Defined.
